(** * Weenix [kernel/vm/vmmap.c]: the address-space map

    A shallow embedding of the region list of [vmmap.c] and of the
    operations on it: [vmmap_find_range], [vmmap_lookup],
    [vmmap_is_range_empty], [vmmap_insert], [vmmap_remove] and
    [vmmap_map].

    Conventions.
    - A [uint32_t] is a [Z] in [0, 2^32); every C operation that can
      leave that range is followed by [u32].  An [int] is a [Z]; the
      conversion of a [uint32_t] to [int] is [to_int].
    - The intrusive list [vmm_list] is a [list vmarea]; a list link is a
      position in that list.
    - Stateful code runs in the monad [M] over [kstate]: the list of the
      map, the reference counts of the memory objects, the scripted
      answers of the collaborators that may fail, and the log of the
      calls made to them.
    - A failed [KASSERT] or a dereferenced [NULL] is [Panic]. *)

From stdpp Require Import base numbers list option.

Local Open Scope Z_scope.

(** ** Machine integers *)

Definition u32 (x : Z) : Z := x mod 2 ^ 32.

Definition to_int (x : Z) : Z := if x <? 2 ^ 31 then x else x - 2 ^ 32.

Definition is_u32 (x : Z) : Prop := 0 <= x < 2 ^ 32.

(** ** Constants of headers that are not part of [vmmap.c] *)

Class kconfig := {
  (** [(USER_MEM_HIGH - USER_MEM_LOW) / PAGE_SIZE], line 27 *)
  USER_PAGE_HIGH : Z;
  (** [mm/page.h] *)
  PAGE_SIZE : Z;
  (** [errno.h] *)
  ENOSPC : Z;
  (** [mm/mman.h] *)
  MAP_PRIVATE : Z;
  (** [vm/vmmap.h] *)
  VMMAP_DIR_LOHI : Z;
  VMMAP_DIR_HILO : Z
}.

(** The values of the i386 Weenix tree. *)
Definition weenix_config : kconfig :=
  {| USER_PAGE_HIGH := (0xc0000000 - 0x00400000) / 4096;
     PAGE_SIZE := 4096;
     ENOSPC := 28;
     MAP_PRIVATE := 2;
     VMMAP_DIR_LOHI := 1;
     VMMAP_DIR_HILO := 2 |}.

(** The same with a window of 1024 user pages, for small scenarios. *)
Definition small_config : kconfig :=
  {| USER_PAGE_HIGH := 1024;
     PAGE_SIZE := 4096;
     ENOSPC := 28;
     MAP_PRIVATE := 2;
     VMMAP_DIR_LOHI := 1;
     VMMAP_DIR_HILO := 2 |}.

(** ** Memory objects and regions *)

(** Modelled from the spec: [mmobj_t] and its constructors live in
    [mm/mmobj.h], [vm/anon.c] and [vm/shadow.c].  A memory object is an
    opaque handle; a shadow object is an overlay over a base object. *)
Inductive mmobj : Type :=
| MmAnon (id : nat)
| MmVnode (id : nat)
| MmShadow (id : nat) (base : mmobj).

Global Instance mmobj_eq_dec : EqDecision mmobj.
Proof. solve_decision. Defined.

Definition is_shadow_over (base top : mmobj) : bool :=
  match top with
  | MmShadow _ b => bool_decide (b = base)
  | _ => false
  end.

Definition pframe := nat.

(** [vmarea_t].  [vma_vmmap] is [true] when it points at the map and
    [false] when it is [NULL]; [vma_obj] is [None] when it is [NULL].
    The links [vma_plink] and [vma_olink] are not fields: the position
    in [vmm_list] plays the part of [vma_plink], and the shadow chain of
    [vma_olink] belongs to the memory-object layer. *)
Record vmarea : Type := mk_vmarea {
  vma_start : Z;
  vma_end : Z;
  vma_off : Z;
  vma_prot : Z;
  vma_flags : Z;
  vma_vmmap : bool;
  vma_obj : option mmobj
}.

Global Instance vmarea_eq_dec : EqDecision vmarea.
Proof. solve_decision. Defined.

Definition set_vma_start (x : Z) (v : vmarea) : vmarea :=
  mk_vmarea x (vma_end v) (vma_off v) (vma_prot v) (vma_flags v) (vma_vmmap v) (vma_obj v).
Definition set_vma_end (x : Z) (v : vmarea) : vmarea :=
  mk_vmarea (vma_start v) x (vma_off v) (vma_prot v) (vma_flags v) (vma_vmmap v) (vma_obj v).
Definition set_vma_off (x : Z) (v : vmarea) : vmarea :=
  mk_vmarea (vma_start v) (vma_end v) x (vma_prot v) (vma_flags v) (vma_vmmap v) (vma_obj v).
Definition set_vma_prot (x : Z) (v : vmarea) : vmarea :=
  mk_vmarea (vma_start v) (vma_end v) (vma_off v) x (vma_flags v) (vma_vmmap v) (vma_obj v).
Definition set_vma_flags (x : Z) (v : vmarea) : vmarea :=
  mk_vmarea (vma_start v) (vma_end v) (vma_off v) (vma_prot v) x (vma_vmmap v) (vma_obj v).
Definition set_vma_vmmap (x : bool) (v : vmarea) : vmarea :=
  mk_vmarea (vma_start v) (vma_end v) (vma_off v) (vma_prot v) (vma_flags v) x (vma_obj v).
Definition set_vma_obj (x : option mmobj) (v : vmarea) : vmarea :=
  mk_vmarea (vma_start v) (vma_end v) (vma_off v) (vma_prot v) (vma_flags v) (vma_vmmap v) x.

(** A region with the given bounds and nothing else, for examples. *)
Definition area (s e : Z) : vmarea := mk_vmarea s e 0 0 0 true None.

(** ** Outcomes of a call *)

Inductive outcome (A : Type) : Type :=
| Ok (a : A)
| Panicked.
Arguments Ok {A} a.
Arguments Panicked {A}.

(** ** The queries: they read [vmm_list] and nothing else *)

Section Queries.
Context {cfg : kconfig}.

(** [valid_pagenumber], lines 49-53 *)
Definition valid_pagenumber (pagenum : Z) : bool := pagenum <? USER_PAGE_HIGH.

(** The forward loop of the low-to-high branch, lines 208-230, from
    its second round on: [vma_prev] is the region before [vma_cur].
    When the list is exhausted [vma_cur] still is the last region. *)
Fixpoint find_range_lohi (npages : Z) (vma_prev : vmarea) (l : list vmarea) : Z :=
  match l with
  | [] =>
      if u32 (USER_PAGE_HIGH - vma_end vma_prev) >=? npages
      then to_int (vma_end vma_prev) else -1
  | vma_cur :: rest =>
      if u32 (vma_start vma_cur - vma_end vma_prev) >=? npages
      then to_int (vma_end vma_prev)
      else find_range_lohi npages vma_cur rest
  end.

(** The reverse loop of the high-to-low branch, lines 239-261, from
    its second round on: [l] is what is left of the list, last region
    first, and [vma_next] is the region after [vma_cur]. *)
Fixpoint find_range_hilo (npages : Z) (vma_next : vmarea) (l : list vmarea) : Z :=
  match l with
  | [] => if vma_start vma_next >=? npages then 0 else -1
  | vma_cur :: rest =>
      if u32 (vma_start vma_next - vma_end vma_cur) >=? npages
      then to_int (vma_end vma_cur)
      else find_range_hilo npages vma_cur rest
  end.

(** [vmmap_find_range], lines 191-265 *)
Definition vmmap_find_range (vmm_list : list vmarea) (npages : Z) (dir : Z) : Z :=
  if (dir =? VMMAP_DIR_LOHI) || (dir =? 0) then
    match vmm_list with
    | [] => 0
    | vma_cur :: rest =>
        if vma_start vma_cur >=? npages then 0
        else find_range_lohi npages vma_cur rest
    end
  else
    match rev vmm_list with
    | [] => to_int (u32 (USER_PAGE_HIGH - npages))
    | vma_cur :: rest =>
        if u32 (USER_PAGE_HIGH - vma_end vma_cur) >=? npages
        then to_int (vma_end vma_cur)
        else find_range_hilo npages vma_cur rest
    end.

(** The loop of [vmmap_lookup], lines 281-287 *)
Fixpoint lookup_areas (l : list vmarea) (vfn : Z) : option vmarea :=
  match l with
  | [] => None
  | vma :: rest =>
      if (vfn >=? vma_start vma) && (vfn <? vma_end vma) then Some vma
      else lookup_areas rest vfn
  end.

(** [vmmap_lookup], lines 270-290 *)
Definition vmmap_lookup (vmm_list : list vmarea) (vfn : Z) : outcome (option vmarea) :=
  if valid_pagenumber vfn then Ok (lookup_areas vmm_list vfn) else Panicked.

(** [vmmap_is_range_empty], lines 524-546 *)
Fixpoint vmmap_is_range_empty (vmm_list : list vmarea) (startvfn npages : Z) : bool :=
  match vmm_list with
  | [] => true
  | vma :: rest =>
      if (vma_start vma >=? u32 (startvfn + npages)) || (vma_end vma <=? startvfn)
      then vmmap_is_range_empty rest startvfn npages
      else false
  end.

End Queries.


(** ** The kernel state seen by [vmmap.c] *)

(** [vnode_t] with the one operation of [vn_ops] used here.  The
    callback is handed the region under construction and a place for
    the memory object: it answers with its status, the memory object,
    and the region as it left it. *)
Record vnode : Type := mk_vnode {
  vn_id : nat;
  vn_mmap : vmarea -> Z * option mmobj * vmarea
}.

(** The calls made to the collaborators, in the order they are made. *)
Inductive event : Type :=
| EvSlabAlloc
| EvSlabFree (vma : vmarea)
| EvAnonCreate
| EvLookuppage (o : mmobj) (pagenum : Z) (forwrite : Z)
| EvRef (o : mmobj)
| EvPut (o : mmobj)
| EvMmap (file : nat) (vma : vmarea).

(** Modelled from the spec: the slab allocator, [anon_create] and the
    operations of [mmo_ops] are outside [vmmap.c].  An allocation
    answers with an object or with [NULL]; [ref] and [put] move the
    reference count by one; [lookuppage] answers with a status and a
    page frame.  [k_slab] and [k_anon] hold the answers of the coming
    calls ([Some raw] is a fresh object with [raw] in its memory), an
    exhausted script answers [NULL]. *)
Record kstate : Type := mk_kstate {
  k_vmm_list : list vmarea;
  k_slab : list (option vmarea);
  k_anon : list (option mmobj);
  k_lookuppage : mmobj -> Z -> Z -> Z * option pframe;
  k_refcount : mmobj -> Z;
  k_log : list event
}.

Definition set_k_vmm_list (l : list vmarea) (k : kstate) : kstate :=
  mk_kstate l (k_slab k) (k_anon k) (k_lookuppage k) (k_refcount k) (k_log k).
Definition set_k_slab (s : list (option vmarea)) (k : kstate) : kstate :=
  mk_kstate (k_vmm_list k) s (k_anon k) (k_lookuppage k) (k_refcount k) (k_log k).
Definition set_k_anon (s : list (option mmobj)) (k : kstate) : kstate :=
  mk_kstate (k_vmm_list k) (k_slab k) s (k_lookuppage k) (k_refcount k) (k_log k).
Definition set_k_refcount (r : mmobj -> Z) (k : kstate) : kstate :=
  mk_kstate (k_vmm_list k) (k_slab k) (k_anon k) (k_lookuppage k) r (k_log k).
Definition log_event (ev : event) (k : kstate) : kstate :=
  mk_kstate (k_vmm_list k) (k_slab k) (k_anon k) (k_lookuppage k) (k_refcount k)
            (k_log k ++ [ev]).

(** ** The monad of the stateful code *)

(** A statement falls through to the next one with a value, leaves the
    enclosing C function with [return code], or stops the kernel. *)
Inductive res (A : Type) : Type :=
| Next (a : A) (k : kstate)
| Return (code : Z) (k : kstate)
| Panic.
Arguments Next {A} a k.
Arguments Return {A} code k.
Arguments Panic {A}.

Definition M (A : Type) : Type := kstate -> res A.

Definition ret {A} (a : A) : M A := fun k => Next a k.

Definition bind {A B} (m : M A) (f : A -> M B) : M B :=
  fun k =>
    match m k with
    | Next a k' => f a k'
    | Return code k' => Return code k'
    | Panic => Panic
    end.

(** With these instances [x ← m; f] and [m;; f] are [bind]. *)
Global Instance M_ret : MRet M := @ret.
Global Instance M_bind : MBind M := fun A B f m => bind m f.

Definition return_ {A} (code : Z) : M A := fun k => Return code k.

Definition panic {A} : M A := fun _ => Panic.

Definition KASSERT (b : bool) : M unit := if b then ret tt else panic.

(** [p->field] for a pointer that may be [NULL] *)
Definition deref {A} (p : option A) : M A :=
  match p with Some a => ret a | None => panic end.

Definition get_state : M kstate := fun k => Next k k.

Definition modify (f : kstate -> kstate) : M unit := fun k => Next tt (f k).

(** A call of an [int] function: its body leaves through [return]. *)
Definition call_int (body : M Empty_set) : M Z :=
  fun k =>
    match body k with
    | Next a _ => match a with end
    | Return code k' => Next code k'
    | Panic => Panic
    end.

(** A call of a [void] function: it ends by [return;] or at its last
    statement. *)
Definition call_void (body : M unit) : M unit :=
  fun k =>
    match body k with
    | Next _ k' => Next tt k'
    | Return _ k' => Next tt k'
    | Panic => Panic
    end.

(** [for (p = lo; p < hi; p++) body], with [n] the number of rounds *)
Fixpoint for_pages (n : nat) (pagenum : Z) (body : Z -> M unit) : M unit :=
  match n with
  | O => ret tt
  | S n' => body pagenum;; for_pages n' (pagenum + 1) body
  end.

(** ** The collaborators *)

Definition slab_obj_alloc : M (option vmarea) :=
  modify (log_event EvSlabAlloc);;
  k ← get_state;
  match k_slab k with
  | [] => ret None
  | r :: rest => modify (set_k_slab rest);; ret r
  end.

Definition slab_obj_free (vma : vmarea) : M unit :=
  modify (log_event (EvSlabFree vma)).

Definition anon_create : M (option mmobj) :=
  modify (log_event EvAnonCreate);;
  k ← get_state;
  match k_anon k with
  | [] => ret None
  | r :: rest => modify (set_k_anon rest);; ret r
  end.

(** The reference counts after the count of [o] moved by [d] *)
Definition bump (d : Z) (o : mmobj) (rc : mmobj -> Z) : mmobj -> Z :=
  fun o' => if decide (o' = o) then rc o' + d else rc o'.

Definition mmo_ref (o : mmobj) : M unit :=
  modify (log_event (EvRef o));;
  modify (fun k => set_k_refcount (bump 1 o (k_refcount k)) k).

Definition mmo_put (o : mmobj) : M unit :=
  modify (log_event (EvPut o));;
  modify (fun k => set_k_refcount (bump (-1) o (k_refcount k)) k).

Definition mmo_lookuppage (o : mmobj) (pagenum forwrite : Z) : M (Z * option pframe) :=
  modify (log_event (EvLookuppage o pagenum forwrite));;
  k ← get_state;
  ret (k_lookuppage k o pagenum forwrite).

Definition vnode_mmap (file : vnode) (vma : vmarea) : M (Z * option mmobj * vmarea) :=
  modify (log_event (EvMmap (vn_id file) vma));;
  ret (vn_mmap file vma).

(** ** The list of the map, by position *)

(** Modelled from the spec: the macros of [util/list.h].  A forward
    iteration visits the regions linked when it starts, each once; it
    survives the removal of the current region and the insertion of a
    region just before it. *)
Definition vma_at (i : nat) : M vmarea :=
  k ← get_state; deref (k_vmm_list k !! i).

Definition vma_modify (i : nat) (f : vmarea -> vmarea) : M unit :=
  vma ← vma_at i;
  modify (fun k => set_k_vmm_list (<[i := f vma]> (k_vmm_list k)) k).

Definition list_insert_before (i : nat) (vma : vmarea) : M unit :=
  modify (fun k => set_k_vmm_list (take i (k_vmm_list k) ++ vma :: drop i (k_vmm_list k)) k).

Definition list_remove (i : nat) : M unit :=
  modify (fun k => set_k_vmm_list (delete i (k_vmm_list k)) k).

(** ** The mutations *)

Section Mutations.
Context {cfg : kconfig}.

(** [PAGE_ALIGNED], [mm/page.h] *)
Definition PAGE_ALIGNED (x : Z) : bool := u32 x mod PAGE_SIZE =? 0.

(** [vmarea_alloc], lines 67-75 *)
Definition vmarea_alloc : M (option vmarea) :=
  newvma ← slab_obj_alloc;
  match newvma with
  | Some v => mret (Some (set_vma_vmmap false v))
  | None => mret None
  end.

(** [vmarea_free], lines 77-82 *)
Definition vmarea_free (vma : vmarea) : M unit := slab_obj_free vma.

(** The loop of [vmmap_insert], lines 153-175, from its second round
    on; [newvma] is linked with [vma_vmmap] set. *)
Fixpoint insert_scan (newvma vma_prev : vmarea) (l : list vmarea) : list vmarea :=
  match l with
  | [] => [set_vma_vmmap true newvma]
  | vma_cur :: rest =>
      if (vma_end newvma <=? vma_start vma_cur) && (vma_start newvma >=? vma_end vma_prev)
      then set_vma_vmmap true newvma :: vma_cur :: rest
      else vma_cur :: insert_scan newvma vma_cur rest
  end.

(** What [vmmap_insert] makes of [vmm_list], lines 145-175 *)
Definition insert_areas (newvma : vmarea) (l : list vmarea) : list vmarea :=
  match l with
  | [] => [set_vma_vmmap true newvma]
  | vma_cur :: rest =>
      if vma_end newvma <=? vma_start vma_cur
      then set_vma_vmmap true newvma :: vma_cur :: rest
      else vma_cur :: insert_scan newvma vma_cur rest
  end.

(** [vmmap_insert], lines 130-182 *)
Definition vmmap_insert (newvma : vmarea) : M unit :=
  call_void (
    KASSERT (vma_end newvma >? vma_start newvma);;
    modify (fun k => set_k_vmm_list (insert_areas newvma (k_vmm_list k)) k)).

(** Case 1 of the loop of [vmmap_remove], lines 460-486, for the region
    at position [i]: split it.  The answer is the position the region
    has afterwards. *)
Definition remove_case1 (lopage hipage : Z) (i : nat) : M nat :=
  vma ← vma_at i;
  if (vma_start vma <? lopage) && (vma_end vma >? hipage) then
    vma_new ← vmarea_alloc;
    match vma_new with
    | None => return_ (- ENOSPC)
    | Some vma_new =>
        let vma_new := set_vma_start (vma_start vma) vma_new in
        let vma_new := set_vma_end lopage vma_new in
        let vma_new := set_vma_off (vma_off vma) vma_new in
        let vma_new := set_vma_prot (vma_prot vma) vma_new in
        let vma_new := set_vma_flags (vma_flags vma) vma_new in
        let vma_new := set_vma_vmmap (vma_vmmap vma) vma_new in
        let vma_new := set_vma_obj (vma_obj vma) vma_new in
        o ← deref (vma_obj vma_new);
        mmo_ref o;;
        list_insert_before i vma_new;;
        let i := S i in
        vma_modify i (fun v => set_vma_off (u32 (hipage - vma_start v + vma_off v)) v);;
        vma_modify i (set_vma_start hipage);;
        mret i
    end
  else mret i.

(** Case 2, lines 488-492: chop off the right part. *)
Definition remove_case2 (lopage hipage : Z) (i : nat) : M unit :=
  vma ← vma_at i;
  if (vma_start vma <? lopage) && (vma_end vma <=? hipage)
  then vma_modify i (set_vma_end lopage)
  else mret tt.

(** Case 3, lines 494-499: chop off the left part. *)
Definition remove_case3 (lopage hipage : Z) (i : nat) : M unit :=
  vma ← vma_at i;
  if (vma_start vma >=? lopage) && (vma_end vma >? hipage)
  then
    vma_modify i (fun v => set_vma_off (u32 (hipage - vma_start v + vma_off v)) v);;
    vma_modify i (set_vma_start hipage)
  else mret tt.

(** Case 4, lines 501-509: remove the region.  The answer is the
    position of the region the loop visits next. *)
Definition remove_case4 (lopage hipage : Z) (i : nat) : M nat :=
  vma ← vma_at i;
  if (vma_start vma >=? lopage) && (vma_end vma <=? hipage)
  then
    o ← deref (vma_obj vma);
    mmo_put o;;
    list_remove i;;
    vmarea_free vma;;
    mret i
  else mret (S i).

(** The body of the loop of [vmmap_remove], lines 460-509, for the
    region at position [i]: the four tests follow one another, each on
    the region as the ones before left it. *)
Definition remove_body (lopage hipage : Z) (i : nat) : M nat :=
  i ← remove_case1 lopage hipage i;
  remove_case2 lopage hipage i;;
  remove_case3 lopage hipage i;;
  remove_case4 lopage hipage i.

(** The loop of [vmmap_remove], line 459: [n] regions are still to be
    visited and the next one is at position [i]. *)
Fixpoint remove_iter (lopage hipage : Z) (n : nat) (i : nat) : M nat :=
  match n with
  | O => mret i
  | S n' => i' ← remove_body lopage hipage i; remove_iter lopage hipage n' i'
  end.

(** [vmmap_remove], lines 446-518 *)
Definition vmmap_remove (lopage npages : Z) : M Z :=
  call_int (
    let hipage := u32 (lopage + npages) in
    k ← get_state;
    remove_iter lopage hipage (length (k_vmm_list k)) 0;;
    return_ 0).

(** The body of the loop of [vmmap_map] over the pages of an anonymous
    mapping, lines 377-385 *)
Definition map_touch_page (mmobj_anon : mmobj) (pagenum : Z) : M unit :=
  '(err, pf) ← mmo_lookuppage mmobj_anon pagenum 1;
  if err <? 0 then
    KASSERT (bool_decide (pf = None));;
    return_ err
  else mret tt.

(** That loop, lines 375-386 *)
Definition map_touch_pages (mmobj_anon : mmobj) (lopage hipage : Z) : M unit :=
  for_pages (Z.to_nat (hipage - lopage)) lopage (map_touch_page mmobj_anon).

(** [vmmap_map], lines 328-415.  The place [new] of the result is never
    written by the code and is left out. *)
Definition vmmap_map (file : option vnode) (lopage npages : Z)
    (prot flags : Z) (off : Z) (dir : Z) : M Z :=
  call_int (
    KASSERT (PAGE_ALIGNED off);;
    vma_result ← vmarea_alloc;
    match vma_result with
    | None => return_ (- ENOSPC)
    | Some vma_result =>
        '(lopage, remove) ←
          (if lopage =? 0 then
             k ← get_state;
             let ret := vmmap_find_range (k_vmm_list k) npages dir in
             if ret <? 0 then
               KASSERT (ret =? -1);;
               return_ (-1)
             else mret (u32 ret, false)
           else mret (lopage, true));
        let hipage := u32 (lopage + npages) in
        let vma_result := set_vma_start lopage vma_result in
        let vma_result := set_vma_end (u32 (lopage + npages)) vma_result in
        let vma_result := set_vma_off 0 vma_result in
        let vma_result := set_vma_prot prot vma_result in
        let vma_result := set_vma_flags flags vma_result in
        vma_result ←
          match file with
          | None =>
              mmobj_anon ← anon_create;
              match mmobj_anon with
              | None => return_ (- ENOSPC)
              | Some mmobj_anon =>
                  map_touch_pages mmobj_anon lopage hipage;;
                  mret (set_vma_obj (Some mmobj_anon) vma_result)
              end
          | Some file =>
              '(err, mmobj_ret, vma_result) ← vnode_mmap file vma_result;
              if err <? 0 then
                KASSERT (bool_decide (mmobj_ret = None));;
                return_ err
              else mret vma_result
          end;
        (if negb (Z.land flags MAP_PRIVATE =? 0) then
           (* create a shadow object *)
           mret tt
         else mret tt);;
        (if (remove : bool) then
           vmmap_remove lopage npages;;
           mret tt
         else mret tt);;
        vmmap_insert vma_result;;
        return_ 0
    end).

End Mutations.

(** ** Properties of the map that the statements below talk about *)

(** Adjacent regions are in order: [A.end <= B.start]. *)
Fixpoint areas_ordered (l : list vmarea) : bool :=
  match l with
  | [] => true
  | a :: rest =>
      match rest with
      | [] => true
      | b :: _ => (vma_end a <=? vma_start b) && areas_ordered rest
      end
  end.

(** Two regions overlap iff neither lies entirely before the other. *)
Definition areas_disjoint (a b : vmarea) : Prop :=
  vma_end a <= vma_start b \/ vma_end b <= vma_start a.

(** A state for examples: the list [l], [n] raw regions in the slab,
    the anonymous objects [MmAnon 0], [MmAnon 1], ... [MmAnon (m-1)],
    page lookups that succeed, reference counts [1], an empty log. *)
Definition raw_area : vmarea := mk_vmarea 0 0 0 0 0 false None.

Definition example_state (l : list vmarea) (n m : nat) : kstate :=
  mk_kstate l (replicate n (Some raw_area)) (map (fun i => Some (MmAnon i)) (seq 0 m))
            (fun _ _ _ => (0, Some 0%nat)) (fun _ => 1) [].

(** What a caller sees of a call: the status and the list of the map. *)
Definition code_and_list (r : res Z) : option (Z * list vmarea) :=
  match r with
  | Next code k => Some (code, k_vmm_list k)
  | Return _ _ | Panic => None
  end.

(** ** [vmmap_destroy] *)

(** The body of the loop of [vmmap_destroy], lines 111-118, for the
    region at position [i]; the answer is the position of the region
    the loop visits next. *)
Definition destroy_body (i : nat) : M nat :=
  vma ← vma_at i;
  o ← deref (vma_obj vma);
  mmo_put o;;
  list_remove i;;
  vmarea_free vma;;
  mret i.

(** The loop of [vmmap_destroy], line 111: [n] regions are still to be
    visited and the next one is at position [i]. *)
Fixpoint destroy_iter (n : nat) (i : nat) : M nat :=
  match n with
  | O => mret i
  | S n' => i' ← destroy_body i; destroy_iter n' i'
  end.

(** [vmmap_destroy], lines 102-124.  The last statement frees the
    [vmmap_t] itself, of which the state holds nothing but the list. *)
Definition vmmap_destroy : M unit :=
  call_void (
    k ← get_state;
    destroy_iter (length (k_vmm_list k)) 0;;
    mret tt).

(** ** More vocabulary for the statements *)

(** The number of regions of [l] whose object is [o] *)
Fixpoint count_obj (o : mmobj) (l : list vmarea) : Z :=
  match l with
  | [] => 0
  | vma :: rest =>
      (if decide (vma_obj vma = Some o) then 1 else 0) + count_obj o rest
  end.

(** A region inside the window of user pages, with at least one page *)
Definition area_in_window {cfg : kconfig} (vma : vmarea) : Prop :=
  0 <= vma_start vma < vma_end vma /\ vma_end vma <= USER_PAGE_HIGH.

(** The invariant of the map: regions in order, each inside the window *)
Definition vmmap_valid {cfg : kconfig} (l : list vmarea) : Prop :=
  areas_ordered l = true /\ Forall area_in_window l.

(** No region of [l] has a page in [[s, s + n)] *)
Definition range_free (l : list vmarea) (s n : Z) : Prop :=
  Forall (fun vma => s + n <= vma_start vma \/ vma_end vma <= s) l.

(** Some region of [l] has a page in [[s, s + n)] *)
Definition range_blocked (l : list vmarea) (s n : Z) : Prop :=
  Exists (fun vma => vma_start vma < s + n /\ s < vma_end vma) l.

(** What the gap search can answer: the start [r] of a free range
    inside the window, or nothing when every start is blocked. *)
Definition found {cfg : kconfig} (l : list vmarea) (npages r : Z) : Prop :=
  0 <= r /\ r + npages <= USER_PAGE_HIGH /\ range_free l r npages.

Definition none_fits {cfg : kconfig} (l : list vmarea) (npages : Z) : Prop :=
  forall s, 0 <= s -> s + npages <= USER_PAGE_HIGH -> range_blocked l s npages.

(** A region as a round of the loop of [vmmap_remove] leaves it: it
    ends at [lo], or it starts at [hi] with an offset that is a
    [uint32_t]. *)
Definition settled (lo hi : Z) (V : vmarea) : Prop :=
  (vma_start V < lo /\ vma_end V = lo)
  \/ (vma_start V = hi /\ hi < vma_end V /\ 0 <= vma_off V < 2 ^ 32).

(** What a round of the loop of [vmmap_remove] can make of the region
    [v]: a region [V] with the attributes of [v], whose bounds are those
    of [v] or the bounds of the removed range. *)
Definition remove_piece (lo hi : Z) (v V : vmarea) : Prop :=
  (lo <= hi -> settled lo hi V)
  /\ (lo <= hi -> hi <= vma_start V \/ vma_end V <= lo)
  /\ (vma_start v < vma_end v -> vma_start V < vma_end V)
  /\ (vma_start V = vma_start v \/ vma_start V = hi)
  /\ (vma_end V = vma_end v \/ vma_end V = lo)
  /\ vma_obj V = vma_obj v
  /\ vma_prot V = vma_prot v
  /\ vma_flags V = vma_flags v
  /\ vma_vmmap V = vma_vmmap v.

(** What [m] can end with, whatever the state: a value in [Q], or a
    status in [R] *)
Definition ends_with {A} (m : M A) (Q : A -> Prop) (R : Z -> Prop) : Prop :=
  forall k,
    match m k with
    | Next a _ => Q a
    | Return code _ => R code
    | Panic => True
    end.

(** ** Reasoning about [M] *)

(** [m] leaves the list of the map as it found it, however it ends. *)
Definition keeps_list {A} (m : M A) : Prop :=
  forall k,
    match m k with
    | Next _ k' | Return _ k' => k_vmm_list k' = k_vmm_list k
    | Panic => True
    end.

(** [m] leaves the list of the map as it found it whenever it leaves
    the function with a status other than [0]. *)
Definition errors_keep_list {A} (m : M A) : Prop :=
  forall k,
    match m k with
    | Return code k' => code <> 0 -> k_vmm_list k' = k_vmm_list k
    | Next _ _ | Panic => True
    end.

Ltac munfold :=
  unfold mbind, M_bind, bind, mret, M_ret, ret, KASSERT, deref, return_, panic,
         modify, get_state; cbv beta iota.

Ltac munfold_in H :=
  unfold mbind, M_bind, bind, mret, M_ret, ret, KASSERT, deref, return_, panic,
         modify, get_state in H; cbv beta iota in H.

(** Decide the comparisons of the goal that [lia] can decide. *)
Ltac zbool :=
  rewrite ?Z.gtb_ltb, ?Z.geb_leb;
  repeat match goal with
  | |- context [?a <? ?b] =>
      first [rewrite (proj2 (Z.ltb_lt a b)) by lia | rewrite (proj2 (Z.ltb_ge a b)) by lia]
  | |- context [?a <=? ?b] =>
      first [rewrite (proj2 (Z.leb_le a b)) by lia | rewrite (proj2 (Z.leb_gt a b)) by lia]
  end;
  cbn [andb orb negb].

Ltac fields :=
  cbn [vma_start vma_end vma_off vma_obj
       set_vma_start set_vma_end set_vma_off set_vma_obj].

Ltac zb := zbool; rewrite ?andb_false_r, ?andb_true_r; cbn [andb].

Ltac piece :=
  unfold remove_piece, settled, u32; fields;
  cbn [vma_prot vma_flags vma_vmmap set_vma_prot set_vma_flags set_vma_vmmap];
  repeat match goal with
         | |- context [?x mod 2 ^ 32] =>
             lazymatch goal with
             | _ : 0 <= x mod 2 ^ 32 < 2 ^ 32 |- _ => fail
             | _ => pose proof (Z.mod_pos_bound x (2 ^ 32) ltac:(lia))
             end
         end;
  repeat split; try done; try lia.

Ltac counts :=
  let o := fresh "o" in
  intros o; cbn [k_refcount count_obj]; unfold bump; fields;
  repeat case_decide; simplify_eq; try lia.

(** * Properties *)

(** ** Machine integers *)

Lemma u32_id (x : Z) : 0 <= x < 2 ^ 32 -> u32 x = x.
Proof. intros H. unfold u32. apply Z.mod_small. exact H. Qed.

Lemma u32_range (x : Z) : 0 <= u32 x < 2 ^ 32.
Proof. unfold u32. apply Z.mod_pos_bound. lia. Qed.

Lemma u32_idem (x : Z) : u32 (u32 x) = u32 x.
Proof. apply u32_id, u32_range. Qed.

(** ** [vmmap_find_range], high to low *)

(** Whenever the gap above the last region admits [npages], the
    high-to-low search answers with the low end of that gap. *)
Lemma find_range_hilo_tail_gap {cfg : kconfig} (l : list vmarea) (last : vmarea)
    (npages dir : Z) :
  dir <> VMMAP_DIR_LOHI -> dir <> 0 ->
  npages <= u32 (USER_PAGE_HIGH - vma_end last) ->
  vmmap_find_range (l ++ [last]) npages dir = to_int (vma_end last).
Proof.
  intros Hd1 Hd2 Hgap. unfold vmmap_find_range.
  destruct (Z.eqb_spec dir VMMAP_DIR_LOHI) as [->|_]; [done|].
  destruct (Z.eqb_spec dir 0) as [->|_]; [done|]. simpl.
  rewrite rev_app_distr. simpl.
  destruct (Z.geb_spec (u32 (USER_PAGE_HIGH - vma_end last)) npages); [done | lia].
Qed.

(** C1: on the map [10,20), [30,40) with 1024 user pages, the
    high-to-low search for 5 pages answers 40, the low end of the tail
    gap, although [1019, 1024) is free and inside the window: the
    answer is not the highest start that fits, and it is not
    [USER_PAGE_HIGH - npages]. *)
Theorem find_range_hilo_low_end_of_tail_gap :
  let l := [area 10 20; area 30 40] in
  vmmap_find_range (cfg := small_config) l 5 (VMMAP_DIR_HILO (kconfig := small_config)) = 40
  /\ vmmap_is_range_empty l 1019 5 = true
  /\ 1019 + 5 <= USER_PAGE_HIGH (kconfig := small_config)
  /\ 40 < USER_PAGE_HIGH (kconfig := small_config) - 5.
Proof. vm_compute. repeat split; congruence. Qed.

(** ** [vmmap_is_range_empty] against [vmmap_lookup] *)

Lemma lookup_areas_None (l : list vmarea) (v : Z) :
  lookup_areas l v = None <->
  Forall (fun vma => ~ (vma_start vma <= v < vma_end vma)) l.
Proof.
  induction l as [|vma l IH]; simpl.
  - split; [constructor | done].
  - rewrite Forall_cons_iff, <- IH.
    destruct (Z.geb_spec v (vma_start vma)), (Z.ltb_spec v (vma_end vma)); simpl;
      split; try discriminate; try (intros []; (done || lia)); try (intros ?; split; [lia | done]).
Qed.

Lemma is_range_empty_Forall (l : list vmarea) (s n : Z) :
  vmmap_is_range_empty l s n = true <->
  Forall (fun vma => u32 (s + n) <= vma_start vma \/ vma_end vma <= s) l.
Proof.
  induction l as [|vma l IH]; simpl.
  - split; [constructor | done].
  - rewrite Forall_cons_iff, <- IH.
    destruct (Z.geb_spec (vma_start vma) (u32 (s + n))),
             (Z.leb_spec (vma_end vma) s); simpl;
      split; try discriminate; try (intros []; (done || lia)); try (intros ?; split; [lia | done]).
Qed.

(** C6, as stated, fails for a range of no pages inside a region:
    [is_range_empty(15, 0)] is false on the map [10,20), while there is
    no page in [15, 15) at all. *)
Lemma is_range_empty_zero_pages_counterexample :
  ~ (vmmap_is_range_empty [area 10 20] 15 0 = true <->
     forall v, 15 <= v < 15 + 0 ->
               vmmap_lookup (cfg := small_config) [area 10 20] v = Ok None).
Proof.
  intros [_ H]. assert (Hf : vmmap_is_range_empty [area 10 20] 15 0 = true).
  { apply H. intros v Hv. lia. }
  vm_compute in Hf. discriminate.
Qed.

(** C6, amended: on a map whose regions all have [start < end], for a
    range of at least one page that lies in the window of user pages,
    [vmmap_is_range_empty] is true iff [vmmap_lookup] finds no region
    at any page of the range. *)
Theorem is_range_empty_iff_lookup_null {cfg : kconfig} (l : list vmarea) (s n : Z) :
  USER_PAGE_HIGH < 2 ^ 32 ->
  Forall (fun vma => vma_start vma < vma_end vma) l ->
  0 <= s -> 1 <= n -> s + n <= USER_PAGE_HIGH ->
  (vmmap_is_range_empty l s n = true <->
   forall v, s <= v < s + n -> vmmap_lookup l v = Ok None).
Proof.
  intros Hcfg Hwf Hs Hn Hhi.
  rewrite is_range_empty_Forall, (u32_id (s + n)) by lia.
  split.
  - intros Hall v Hv. unfold vmmap_lookup, valid_pagenumber.
    destruct (Z.ltb_spec v USER_PAGE_HIGH); [|lia].
    f_equal. apply lookup_areas_None.
    eapply List.Forall_impl; [|exact Hall]. simpl. intros vma Hvma. lia.
  - intros Hlook. rewrite Forall_forall in Hwf |- *. intros vma Hin.
    destruct (Z.le_gt_cases (s + n) (vma_start vma)) as [|Hlt]; [by left|].
    destruct (Z.le_gt_cases (vma_end vma) s) as [|Hgt]; [by right|].
    exfalso. specialize (Hwf vma Hin). simpl in Hwf.
    specialize (Hlook (Z.max s (vma_start vma)) ltac:(lia)).
    unfold vmmap_lookup, valid_pagenumber in Hlook.
    destruct (Z.ltb_spec (Z.max s (vma_start vma)) USER_PAGE_HIGH); [|discriminate].
    injection Hlook as Hlook. rewrite lookup_areas_None, Forall_forall in Hlook.
    specialize (Hlook vma Hin). simpl in Hlook. lia.
Qed.

Lemma is_range_empty_iff_lookup_null_witness :
  vmmap_is_range_empty [area 10 20] 20 5 = true <->
  forall v, 20 <= v < 20 + 5 ->
            vmmap_lookup (cfg := small_config) [area 10 20] v = Ok None.
Proof.
  apply (is_range_empty_iff_lookup_null (cfg := small_config) [area 10 20] 20 5).
  - vm_compute. reflexivity.
  - repeat constructor.
  - lia.
  - lia.
  - vm_compute. discriminate.
Defined.

(** ** [vmmap_remove] *)

Lemma list_insert_at_length {A} (l1 l2 : list A) (x y : A) :
  <[length l1 := y]> (l1 ++ x :: l2) = l1 ++ y :: l2.
Proof. by rewrite <- (Nat.add_0_r (length l1)), insert_app_r. Qed.

Section Remove.
Context {cfg : kconfig}.
Implicit Types (l done rest : list vmarea) (v vma : vmarea) (k : kstate).

Lemma vma_at_mk done v rest s a lp rc lg :
  vma_at (length done) (mk_kstate (done ++ v :: rest) s a lp rc lg)
  = Next v (mk_kstate (done ++ v :: rest) s a lp rc lg).
Proof. unfold vma_at. munfold. simpl. by rewrite list_lookup_middle. Qed.

Lemma vma_modify_mk f done v rest s a lp rc lg :
  vma_modify (length done) f (mk_kstate (done ++ v :: rest) s a lp rc lg)
  = Next tt (mk_kstate (done ++ f v :: rest) s a lp rc lg).
Proof.
  unfold vma_modify. munfold. rewrite vma_at_mk. unfold set_k_vmm_list. simpl.
  by rewrite list_insert_at_length.
Qed.

Lemma list_insert_before_mk x done l s a lp rc lg :
  list_insert_before (length done) x (mk_kstate (done ++ l) s a lp rc lg)
  = Next tt (mk_kstate ((done ++ [x]) ++ l) s a lp rc lg).
Proof.
  unfold list_insert_before. munfold. unfold set_k_vmm_list. simpl.
  by rewrite take_app_length, drop_app_length, <- app_assoc.
Qed.

Lemma list_remove_mk done v rest s a lp rc lg :
  list_remove (length done) (mk_kstate (done ++ v :: rest) s a lp rc lg)
  = Next tt (mk_kstate (done ++ rest) s a lp rc lg).
Proof.
  unfold list_remove. munfold. unfold set_k_vmm_list. simpl.
  by rewrite delete_middle.
Qed.

Lemma vmarea_alloc_mk l raw s a lp rc lg :
  vmarea_alloc (mk_kstate l (Some raw :: s) a lp rc lg)
  = Next (Some (set_vma_vmmap false raw)) (mk_kstate l s a lp rc (lg ++ [EvSlabAlloc])).
Proof. done. Qed.

Lemma vmarea_alloc_mk_null l s a lp rc lg :
  vmarea_alloc (mk_kstate l (None :: s) a lp rc lg)
  = Next None (mk_kstate l s a lp rc (lg ++ [EvSlabAlloc])).
Proof. done. Qed.

Lemma vmarea_alloc_mk_nil l a lp rc lg :
  vmarea_alloc (mk_kstate l [] a lp rc lg)
  = Next None (mk_kstate l [] a lp rc (lg ++ [EvSlabAlloc])).
Proof. done. Qed.

Lemma mmo_ref_mk o l s a lp rc lg :
  mmo_ref o (mk_kstate l s a lp rc lg)
  = Next tt (mk_kstate l s a lp (bump 1 o rc) (lg ++ [EvRef o])).
Proof. done. Qed.

Lemma mmo_put_mk o l s a lp rc lg :
  mmo_put o (mk_kstate l s a lp rc lg)
  = Next tt (mk_kstate l s a lp (bump (-1) o rc) (lg ++ [EvPut o])).
Proof. done. Qed.

Lemma vmarea_free_mk v l s a lp rc lg :
  vmarea_free v (mk_kstate l s a lp rc lg)
  = Next tt (mk_kstate l s a lp rc (lg ++ [EvSlabFree v])).
Proof. done. Qed.

Lemma remove_case2_mk lo hi done v rest s a lp rc lg :
  remove_case2 lo hi (length done) (mk_kstate (done ++ v :: rest) s a lp rc lg)
  = Next tt (mk_kstate
      (done ++ (if (vma_start v <? lo) && (vma_end v <=? hi) then set_vma_end lo v else v) :: rest)
      s a lp rc lg).
Proof.
  unfold remove_case2. munfold. rewrite vma_at_mk.
  destruct (_ && _); [apply vma_modify_mk | done].
Qed.

Lemma remove_case3_mk lo hi done v rest s a lp rc lg :
  remove_case3 lo hi (length done) (mk_kstate (done ++ v :: rest) s a lp rc lg)
  = Next tt (mk_kstate
      (done ++ (if (vma_start v >=? lo) && (vma_end v >? hi)
                then set_vma_start hi (set_vma_off (u32 (hi - vma_start v + vma_off v)) v)
                else v) :: rest)
      s a lp rc lg).
Proof.
  unfold remove_case3. munfold. rewrite vma_at_mk.
  destruct (_ && _); [|done]. by rewrite !vma_modify_mk.
Qed.

Lemma remove_case4_mk lo hi done v rest s a lp rc lg :
  remove_case4 lo hi (length done) (mk_kstate (done ++ v :: rest) s a lp rc lg)
  = if (vma_start v >=? lo) && (vma_end v <=? hi) then
      match vma_obj v with
      | Some o => Next (length done)
                    (mk_kstate (done ++ rest) s a lp (bump (-1) o rc)
                               (lg ++ [EvPut o] ++ [EvSlabFree v]))
      | None => Panic
      end
    else Next (S (length done)) (mk_kstate (done ++ v :: rest) s a lp rc lg).
Proof.
  unfold remove_case4. munfold. rewrite vma_at_mk.
  destruct (_ && _); [|done]. destruct (vma_obj v); [|done]. munfold.
  by rewrite mmo_put_mk, list_remove_mk, vmarea_free_mk, <- app_assoc.
Qed.

Lemma remove_case1_mk lo hi done v rest s a lp rc lg :
  remove_case1 lo hi (length done) (mk_kstate (done ++ v :: rest) s a lp rc lg)
  = if (vma_start v <? lo) && (vma_end v >? hi) then
      match s with
      | Some raw :: s' =>
          match vma_obj v with
          | Some o =>
              Next (S (length done))
                (mk_kstate
                   (done ++ mk_vmarea (vma_start v) lo (vma_off v) (vma_prot v)
                                      (vma_flags v) (vma_vmmap v) (vma_obj v)
                         :: set_vma_start hi
                              (set_vma_off (u32 (hi - vma_start v + vma_off v)) v)
                         :: rest)
                   s' a lp (bump 1 o rc) (lg ++ [EvSlabAlloc] ++ [EvRef o]))
          | None => Panic
          end
      | None :: s' =>
          Return (- ENOSPC) (mk_kstate (done ++ v :: rest) s' a lp rc (lg ++ [EvSlabAlloc]))
      | [] =>
          Return (- ENOSPC) (mk_kstate (done ++ v :: rest) [] a lp rc (lg ++ [EvSlabAlloc]))
      end
    else Next (length done) (mk_kstate (done ++ v :: rest) s a lp rc lg).
Proof.
  unfold remove_case1. munfold. rewrite vma_at_mk.
  destruct (_ && _); [|done].
  destruct s as [|[raw|] s'].
  - by rewrite vmarea_alloc_mk_nil.
  - rewrite vmarea_alloc_mk. cbv beta iota zeta. cbn [vma_obj set_vma_obj].
    destruct (vma_obj v) as [o|]; [|done]. munfold.
    rewrite mmo_ref_mk, list_insert_before_mk.
    match goal with |- context [ (done ++ [?x]) ++ _ ] =>
      replace (S (length done)) with (length (done ++ [x]))
        by (rewrite length_app; simpl; lia)
    end.
    rewrite !vma_modify_mk, <- !app_assoc. simpl. done.
  - by rewrite vmarea_alloc_mk_null.
Qed.

(** Cases 2 to 4 on the region at position [length done]: they never
    leave the function, and they touch that region only. *)
Lemma remove_tail_frame lo hi done v rest s a lp rc lg :
  match (remove_case2 lo hi (length done);;
         remove_case3 lo hi (length done);;
         remove_case4 lo hi (length done)) (mk_kstate (done ++ v :: rest) s a lp rc lg) with
  | Next i' k' =>
      exists vs, k_vmm_list k' = done ++ vs ++ rest /\ i' = length (done ++ vs)
  | Return _ _ => False
  | Panic => True
  end.
Proof.
  munfold. rewrite remove_case2_mk, remove_case3_mk, remove_case4_mk.
  match goal with |- context [done ++ ?x :: rest] => generalize x; intros v' end.
  destruct (_ && _); [destruct (vma_obj v'); [|done]|].
  - exists []. simpl. by rewrite app_nil_r.
  - exists [v']. simpl. split; [done|]. rewrite length_app. simpl. lia.
Qed.

Lemma remove_tail_frame_after lo hi done x v rest s a lp rc lg :
  match (remove_case2 lo hi (S (length done));;
         remove_case3 lo hi (S (length done));;
         remove_case4 lo hi (S (length done)))
          (mk_kstate (done ++ x :: v :: rest) s a lp rc lg) with
  | Next i' k' =>
      exists vs, k_vmm_list k' = done ++ vs ++ rest /\ i' = length (done ++ vs)
  | Return _ _ => False
  | Panic => True
  end.
Proof.
  pose proof (remove_tail_frame lo hi (done ++ [x]) v rest s a lp rc lg) as Ht.
  rewrite length_app, Nat.add_1_r, <- app_assoc in Ht. cbn [app] in Ht.
  match goal with |- match ?t with _ => _ end => destruct t as [i' k'| |] end; [|done..].
  destruct Ht as (vs & Hl & ->). exists (x :: vs).
  by rewrite Hl, <- !app_assoc.
Qed.

Lemma remove_body_unfold lo hi i k :
  remove_body lo hi i k =
  match remove_case1 lo hi i k with
  | Next i1 k1 =>
      (remove_case2 lo hi i1;; remove_case3 lo hi i1;; remove_case4 lo hi i1) k1
  | Return code k' => Return code k'
  | Panic => Panic
  end.
Proof. reflexivity. Qed.

(** One round of the loop: it replaces the region it visits by zero, one
    or two regions and leaves the others alone; it leaves the function
    only when the allocation of case 1 fails, and then the list is as it
    was before the round. *)
Lemma remove_body_frame lo hi done v rest k :
  k_vmm_list k = done ++ v :: rest ->
  match remove_body lo hi (length done) k with
  | Next i' k' =>
      exists vs, k_vmm_list k' = done ++ vs ++ rest /\ i' = length (done ++ vs)
  | Return code k' =>
      code = - ENOSPC /\ vma_start v < lo /\ hi < vma_end v /\
      vmarea_alloc k = Next None k' /\ k_vmm_list k' = k_vmm_list k
  | Panic => True
  end.
Proof.
  destruct k as [l s a lp rc lg]. simpl. intros ->.
  rewrite remove_body_unfold, remove_case1_mk.
  destruct (Z.ltb_spec (vma_start v) lo), (Z.gtb_spec (vma_end v) hi); simpl.
  2-4: pose proof (remove_tail_frame lo hi done v rest s a lp rc lg) as Ht;
       by match goal with |- match ?t with _ => _ end => destruct t end.
  destruct s as [|[raw|] s']; [by repeat split; try lia| |by repeat split; try lia].
  destruct (vma_obj v) as [o|]; [|done].
  match goal with |- context [mk_kstate (done ++ ?x :: ?y :: rest) ?s ?a ?lp ?rc ?lg] =>
    pose proof (remove_tail_frame_after lo hi done x y rest s a lp rc lg) as Ht
  end.
  by match goal with |- match ?t with _ => _ end => destruct t end.
Qed.

Lemma remove_iter_S lo hi n i k :
  remove_iter lo hi (S n) i k =
  match remove_body lo hi i k with
  | Next i' k' => remove_iter lo hi n i' k'
  | Return code k' => Return code k'
  | Panic => Panic
  end.
Proof. reflexivity. Qed.

Lemma remove_iter_add lo hi n m i k :
  remove_iter lo hi (n + m) i k =
  match remove_iter lo hi n i k with
  | Next i' k' => remove_iter lo hi m i' k'
  | Return code k' => Return code k'
  | Panic => Panic
  end.
Proof.
  revert i k. induction n as [|n IH]; intros i k; [done|].
  rewrite Nat.add_succ_l, !remove_iter_S.
  destruct (remove_body lo hi i k); [apply IH|done..].
Qed.

(** The loop over the regions [todo] that follow [done]: either it
    visits them all and leaves [done] and [rest] alone, or it leaves the
    function at a region [V] that called for a split whose allocation
    failed; then what was done to the regions before [V] stays, and [V]
    and the regions after it are as they were. *)
Lemma remove_iter_frame lo hi todo : forall done rest k,
  k_vmm_list k = done ++ todo ++ rest ->
  match remove_iter lo hi (length todo) (length done) k with
  | Next i' k' =>
      exists vs, k_vmm_list k' = done ++ vs ++ rest /\ i' = length (done ++ vs)
  | Return code k' =>
      code = - ENOSPC /\
      exists pre V post vs k1,
        todo = pre ++ V :: post /\
        remove_iter lo hi (length pre) (length done) k = Next (length (done ++ vs)) k1 /\
        k_vmm_list k1 = done ++ vs ++ V :: post ++ rest /\
        vma_start V < lo /\ hi < vma_end V /\
        vmarea_alloc k1 = Next None k' /\
        k_vmm_list k' = k_vmm_list k1
  | Panic => True
  end.
Proof.
  induction todo as [|v todo IH]; intros done rest k Hl.
  - simpl. exists []. by rewrite app_nil_r.
  - cbn [length]. rewrite remove_iter_S.
    pose proof (remove_body_frame lo hi done v (todo ++ rest) k Hl) as Hb.
    destruct (remove_body lo hi (length done) k) as [i' k'|code k'|] eqn:Eb; [| |done].
    + destruct Hb as (vs & Hl' & ->). rewrite app_assoc in Hl'.
      specialize (IH (done ++ vs) rest k' Hl').
      destruct (remove_iter lo hi (length todo) (length (done ++ vs)) k')
        as [i'' k''|code k''|] eqn:Ei; [| |done].
      * destruct IH as (vs' & Hl'' & ->). exists (vs ++ vs').
        by rewrite Hl'', !app_assoc.
      * destruct IH as (-> & pre & V & post & vs' & k1 & -> & Hpre & Hl1 & Hs & He & Ha & Hk').
        split; [done|].
        exists (v :: pre), V, post, (vs ++ vs'), k1.
        cbn [length]. rewrite remove_iter_S, Eb, Hpre, Hk', Hl1, <- !app_assoc.
        done.
    + destruct Hb as (-> & Hs & He & Ha & Hk'). split; [done|].
      exists [], v, todo, [], k. simpl. rewrite app_nil_r. done.
Qed.

Lemma vmmap_remove_unfold lo n k :
  vmmap_remove lo n k =
  match remove_iter lo (u32 (lo + n)) (length (k_vmm_list k)) 0 k with
  | Next _ k' => Next 0 k'
  | Return code k' => Next code k'
  | Panic => Panic
  end.
Proof.
  unfold vmmap_remove, call_int. munfold.
  by destruct (remove_iter _ _ _ _ _).
Qed.

Lemma remove_body_alloc_fails lo hi done V rest k k' :
  k_vmm_list k = done ++ V :: rest ->
  vma_start V < lo -> hi < vma_end V ->
  vmarea_alloc k = Next None k' ->
  remove_body lo hi (length done) k = Return (- ENOSPC) k'.
Proof.
  destruct k as [l s a lp rc lg]. simpl. intros -> Hs He Ha.
  rewrite remove_body_unfold, remove_case1_mk.
  destruct (Z.ltb_spec (vma_start V) lo); [|lia].
  destruct (Z.gtb_spec (vma_end V) hi); [|lia]. simpl.
  destruct s as [|[raw|] s'].
  - rewrite vmarea_alloc_mk_nil in Ha. by injection Ha as <-.
  - by rewrite vmarea_alloc_mk in Ha.
  - rewrite vmarea_alloc_mk_null in Ha. by injection Ha as <-.
Qed.

Lemma remove_body_cut lo hi done V rest raw s a lp rc lg o :
  vma_start V < lo -> hi < vma_end V -> lo <= hi -> vma_obj V = Some o ->
  remove_body lo hi (length done) (mk_kstate (done ++ V :: rest) (Some raw :: s) a lp rc lg)
  = Next (S (S (length done)))
      (mk_kstate
         (done ++ mk_vmarea (vma_start V) lo (vma_off V) (vma_prot V)
                            (vma_flags V) (vma_vmmap V) (vma_obj V)
               :: set_vma_start hi (set_vma_off (u32 (hi - vma_start V + vma_off V)) V)
               :: rest)
         s a lp (bump 1 o rc) (lg ++ [EvSlabAlloc] ++ [EvRef o])).
Proof.
  intros Hs He Hlh Ho.
  rewrite remove_body_unfold, remove_case1_mk. zbool. rewrite Ho. munfold.
  match goal with |- context [done ++ ?x :: ?y :: rest] =>
    replace (done ++ x :: y :: rest) with ((done ++ [x]) ++ y :: rest)
      by (by rewrite <- app_assoc);
    replace (S (length done)) with (length (done ++ [x]))
      by (rewrite length_app; simpl; lia)
  end.
  rewrite remove_case2_mk. fields. zbool.
  rewrite remove_case3_mk. fields. zbool.
  rewrite remove_case4_mk. fields. zbool.
  rewrite Z.sub_diag, Z.add_0_l, u32_idem.
  unfold set_vma_start, set_vma_off. by simpl.
Qed.

(** C7: in [vmmap_remove] nothing fails but the allocation of the
    split region.  First part: a status other than [0] is [-ENOSPC],
    and it comes from a region [V] with [V.start < lopage] and
    [V.end > hipage] at which [vmarea_alloc] answered [NULL], after the
    loop went through the regions [pre] before [V].  Second part: at
    such a failure the call answers [-ENOSPC]; [V] and the regions after
    it are as they were, and the regions before [V] stay as the loop
    left them, [pre']. *)
Theorem remove_fails_only_on_split_allocation (lo n : Z) (k : kstate) :
  let hi := u32 (lo + n) in
  (forall code k',
     vmmap_remove lo n k = Next code k' ->
     code = 0 \/
     (code = - ENOSPC /\
      exists pre V post pre' i1 k1,
        k_vmm_list k = pre ++ V :: post /\
        remove_iter lo hi (length pre) 0 k = Next i1 k1 /\
        k_vmm_list k1 = pre' ++ V :: post /\
        vma_start V < lo /\ hi < vma_end V /\
        vmarea_alloc k1 = Next None k' /\
        k_vmm_list k' = pre' ++ V :: post))
  /\
  (forall pre V post i1 k1 k',
     k_vmm_list k = pre ++ V :: post ->
     remove_iter lo hi (length pre) 0 k = Next i1 k1 ->
     vma_start V < lo -> hi < vma_end V ->
     vmarea_alloc k1 = Next None k' ->
     vmmap_remove lo n k = Next (- ENOSPC) k' /\
     exists pre', k_vmm_list k1 = pre' ++ V :: post /\
                  k_vmm_list k' = pre' ++ V :: post).
Proof.
  intros hi. split.
  - intros code k' Hr. rewrite vmmap_remove_unfold in Hr. fold hi in Hr.
    pose proof (remove_iter_frame lo hi (k_vmm_list k) [] [] k) as Hf.
    rewrite app_nil_r in Hf. specialize (Hf eq_refl). simpl in Hf.
    destruct (remove_iter lo hi (length (k_vmm_list k)) 0 k) as [i k2|c k2|];
      [left; congruence| |done].
    injection Hr as -> ->. right.
    destruct Hf as (-> & pre & V & post & vs & k1 & Hl & Hpre & Hl1 & Hs & He & Ha & Hk').
    split; [done|]. exists pre, V, post, vs, (length vs), k1.
    rewrite app_nil_r in Hl1. by rewrite Hk', Hl1.
  - intros pre V post i1 k1 k' Hl Hpre Hs He Ha.
    pose proof (remove_iter_frame lo hi pre [] (V :: post) k Hl) as Hf.
    simpl in Hf. rewrite Hpre in Hf. destruct Hf as (pre' & Hl1 & ->).
    pose proof (remove_body_alloc_fails lo hi pre' V post k1 k' Hl1 Hs He Ha) as Hb.
    split.
    + rewrite vmmap_remove_unfold, Hl, length_app. cbn [length]. fold hi.
      by rewrite remove_iter_add, Hpre, remove_iter_S, Hb.
    + exists pre'. split; [done|].
      pose proof (remove_body_frame lo hi pre' V post k1 Hl1) as Hf.
      rewrite Hb in Hf. destruct Hf as (_ & _ & _ & _ & ->). done.
Qed.

(** C3: when the loop of [vmmap_remove] reaches a region [V] with
    [V.start < lopage] and [lopage + npages < V.end] and the split
    allocation succeeds, [V] is replaced by two regions: [V_left] is
    [[V.start, lopage)] with the offset, protection, flags and object
    of [V], linked just before [V]; [V] itself becomes [V_right], with
    [start = lopage + npages], [off] grown by
    [lopage + npages - V.start] (a [uint32_t] addition) and its object
    kept.  The reference count of the object grows by one in that round
    and no other count moves, and both regions are in the list when the
    call ends. *)
Theorem remove_interior_cut (lo n : Z) (k : kstate) (pre : list vmarea) (V : vmarea)
    (post : list vmarea) (i1 : nat) (k1 : kstate) (raw : vmarea)
    (slab' : list (option vmarea)) (o : mmobj) :
  k_vmm_list k = pre ++ V :: post ->
  0 <= lo -> 0 <= n -> vma_end V < 2 ^ 32 ->
  vma_start V < lo -> lo + n < vma_end V ->
  remove_iter lo (u32 (lo + n)) (length pre) 0 k = Next i1 k1 ->
  k_slab k1 = Some raw :: slab' ->
  vma_obj V = Some o ->
  let V_left := mk_vmarea (vma_start V) lo (vma_off V) (vma_prot V) (vma_flags V)
                          (vma_vmmap V) (vma_obj V) in
  let V_right := set_vma_start (lo + n)
                   (set_vma_off (u32 (vma_off V + (lo + n - vma_start V))) V) in
  exists pre' k2,
    k_vmm_list k1 = pre' ++ V :: post /\
    remove_iter lo (u32 (lo + n)) (S (length pre)) 0 k = Next (length pre' + 2)%nat k2 /\
    k_vmm_list k2 = pre' ++ V_left :: V_right :: post /\
    k_refcount k2 o = k_refcount k1 o + 1 /\
    (forall o', o' <> o -> k_refcount k2 o' = k_refcount k1 o') /\
    vma_obj V_right = Some o /\
    (forall code k', vmmap_remove lo n k = Next code k' ->
       exists post', k_vmm_list k' = pre' ++ V_left :: V_right :: post').
Proof.
  intros Hl Hlo Hn Hend Hs He Hpre Hslab Ho V_left V_right.
  assert (Hhi : u32 (lo + n) = lo + n) by (apply u32_id; lia).
  rewrite Hhi in *.
  pose proof (remove_iter_frame lo (lo + n) pre [] (V :: post) k Hl) as Hf.
  simpl in Hf. rewrite Hpre in Hf. destruct Hf as (pre' & Hl1 & ->).
  destruct k1 as [l1 s1 a1 lp1 rc1 lg1]. simpl in Hl1, Hslab. subst l1 s1.
  pose proof (remove_body_cut lo (lo + n) pre' V post raw slab' a1 lp1 rc1 lg1 o
                Hs He ltac:(lia) Ho) as Hb.
  replace (lo + n - vma_start V + vma_off V) with (vma_off V + (lo + n - vma_start V))
    in Hb by lia.
  fold V_left V_right in Hb.
  eexists pre', _. split; [done|]. split; [|split; [|split; [|split; [|split]]]].
  - replace (S (length pre)) with (length pre + 1)%nat by lia.
    rewrite remove_iter_add, Hpre, remove_iter_S, Hb. simpl.
    f_equal. lia.
  - done.
  - simpl. unfold bump. by rewrite decide_True.
  - intros o' Hne. simpl. unfold bump. by rewrite decide_False.
  - done.
  - intros code k' Hr. rewrite vmmap_remove_unfold, Hhi, Hl, length_app in Hr.
    cbn [length] in Hr.
    replace (length pre + S (length post))%nat with (length pre + (1 + length post))%nat
      in Hr by lia.
    rewrite remove_iter_add, Hpre, remove_iter_add, remove_iter_S, Hb in Hr.
    cbn [remove_iter] in Hr. munfold_in Hr.
    match type of Hr with context [remove_iter _ _ _ _ ?k2] =>
      pose proof (remove_iter_frame lo (lo + n) post (pre' ++ [V_left; V_right]) [] k2) as Hf
    end.
    rewrite length_app in Hf. cbn [length k_vmm_list] in Hf.
    replace (length pre' + 2)%nat with (S (S (length pre'))) in Hf by lia.
    rewrite <- app_assoc, app_nil_r in Hf. specialize (Hf eq_refl).
    match type of Hr with context [match ?t with _ => _ end] =>
      destruct t as [i k3|c k3|]
    end; [| |done].
    + injection Hr as <- <-. destruct Hf as (vs & Hl3 & _).
      exists vs. rewrite Hl3, app_nil_r, <- app_assoc. done.
    + injection Hr as <- <-.
      destruct Hf as (_ & p2 & V2 & post2 & vs & k4 & _ & _ & Hl4 & _ & _ & _ & Hk3).
      exists (vs ++ V2 :: post2). rewrite Hk3, Hl4, app_nil_r, <- app_assoc. done.
Qed.
End Remove.

Lemma remove_fails_only_on_split_allocation_witness :
  let V := mk_vmarea 100 200 7 1 2 true (Some (MmAnon 0)) in
  let k := example_state [V] 0 0 in
  vmmap_remove (cfg := small_config) 120 30 k
    = Next (- ENOSPC (kconfig := small_config)) (log_event EvSlabAlloc k)
  /\ exists pre', k_vmm_list k = pre' ++ [V]
                  /\ k_vmm_list (log_event EvSlabAlloc k) = pre' ++ [V].
Proof.
  intros V k.
  apply (proj2 (remove_fails_only_on_split_allocation (cfg := small_config) 120 30 k)
           [] V [] 0%nat k (log_event EvSlabAlloc k)).
  - reflexivity.
  - reflexivity.
  - simpl; lia.
  - vm_compute; reflexivity.
  - reflexivity.
Defined.

Lemma remove_interior_cut_witness :
  let V := mk_vmarea 100 200 7 1 2 true (Some (MmAnon 0)) in
  let k := example_state [V] 1 0 in
  exists pre' k2,
    k_vmm_list k = pre' ++ [V]
    /\ remove_iter (cfg := small_config) 120 (u32 (120 + 30)) 1 0 k
       = Next (length pre' + 2)%nat k2
    /\ k_vmm_list k2 = pre' ++ [mk_vmarea 100 120 7 1 2 true (Some (MmAnon 0));
                                mk_vmarea 150 200 57 1 2 true (Some (MmAnon 0))]
    /\ k_refcount k2 (MmAnon 0) = k_refcount k (MmAnon 0) + 1.
Proof.
  intros V k.
  pose proof (remove_interior_cut (cfg := small_config) 120 30 k [] V [] 0%nat k
                raw_area [] (MmAnon 0)) as H.
  cbv zeta in H.
  destruct H as (pre' & k2 & H1 & H2 & H3 & H4 & _).
  - reflexivity.
  - lia.
  - lia.
  - vm_compute; reflexivity.
  - simpl; lia.
  - simpl; lia.
  - reflexivity.
  - reflexivity.
  - reflexivity.
  - exists pre', k2. repeat split; assumption.
Defined.

(** ** [vmmap_insert] *)

Lemma insert_scan_ordered (newvma : vmarea) (l : list vmarea) : forall vma_prev,
  areas_ordered (vma_prev :: l) = true ->
  vma_end vma_prev <= vma_start newvma ->
  Forall (areas_disjoint newvma) l ->
  areas_ordered (vma_prev :: insert_scan newvma vma_prev l) = true.
Proof.
  induction l as [|vma_cur rest IH]; intros vma_prev Hord Hprev Hdis.
  - simpl. rewrite andb_true_r. by apply Z.leb_le.
  - cbn [insert_scan]. apply Forall_cons_iff in Hdis as [Hcur Hrest].
    change (areas_ordered (vma_prev :: vma_cur :: rest))
      with ((vma_end vma_prev <=? vma_start vma_cur) && areas_ordered (vma_cur :: rest))
      in Hord.
    apply andb_true_iff in Hord as [Hpc Hord].
    destruct (Z.leb_spec (vma_end newvma) (vma_start vma_cur)) as [Hle|Hgt];
      [destruct (Z.geb_spec (vma_start newvma) (vma_end vma_prev)); [|lia]|]; cbn [andb].
    + change (areas_ordered (vma_prev :: set_vma_vmmap true newvma :: vma_cur :: rest))
        with ((vma_end vma_prev <=? vma_start newvma)
              && ((vma_end newvma <=? vma_start vma_cur)
                  && areas_ordered (vma_cur :: rest))).
      rewrite Hord, andb_true_r. apply andb_true_iff. split; by apply Z.leb_le.
    + change (areas_ordered (vma_prev :: vma_cur :: insert_scan newvma vma_cur rest))
        with ((vma_end vma_prev <=? vma_start vma_cur)
              && areas_ordered (vma_cur :: insert_scan newvma vma_cur rest)).
      rewrite Hpc. cbn [andb]. apply IH; [done| |done].
      destruct Hcur as [Hc|Hc]; [lia | done].
Qed.

(** [vmmap_insert] keeps the list in order when the new region is
    disjoint from every region of the list. *)
Lemma insert_areas_ordered (newvma : vmarea) (l : list vmarea) :
  areas_ordered l = true ->
  Forall (areas_disjoint newvma) l ->
  areas_ordered (insert_areas newvma l) = true.
Proof.
  destruct l as [|vma_cur rest]; intros Hord Hdis; [done|].
  cbn [insert_areas]. apply Forall_cons_iff in Hdis as [Hcur Hrest].
  destruct (Z.leb_spec (vma_end newvma) (vma_start vma_cur)) as [Hle|Hgt].
  - change (areas_ordered (set_vma_vmmap true newvma :: vma_cur :: rest))
      with ((vma_end newvma <=? vma_start vma_cur) && areas_ordered (vma_cur :: rest)).
    rewrite Hord, andb_true_r. by apply Z.leb_le.
  - apply insert_scan_ordered; [done| |done].
    destruct Hcur as [Hc|Hc]; [lia | done].
Qed.

Lemma vmmap_insert_ordered {cfg : kconfig} (newvma : vmarea) (k : kstate) :
  vma_start newvma < vma_end newvma ->
  areas_ordered (k_vmm_list k) = true ->
  Forall (areas_disjoint newvma) (k_vmm_list k) ->
  exists k', vmmap_insert newvma k = Next tt k'
             /\ areas_ordered (k_vmm_list k') = true.
Proof.
  intros Hne Hord Hdis. unfold vmmap_insert, call_void. munfold. zbool.
  eexists. split; [reflexivity|]. simpl. by apply insert_areas_ordered.
Qed.

(** ** [vmmap_map] *)

Section Map.
Context {cfg : kconfig}.

Lemma keeps_list_ret {A} (a : A) : keeps_list (mret a).
Proof. by intros k. Qed.

Lemma keeps_list_return {A} (code : Z) : keeps_list (return_ (A := A) code).
Proof. by intros k. Qed.

Lemma keeps_list_panic {A} : keeps_list (panic (A := A)).
Proof. by intros k. Qed.

Lemma keeps_list_KASSERT (b : bool) : keeps_list (KASSERT b).
Proof. by destruct b. Qed.

Lemma keeps_list_bind {A B} (m : M A) (f : A -> M B) :
  keeps_list m -> (forall a, keeps_list (f a)) -> keeps_list (m ≫= f).
Proof.
  intros Hm Hf k. unfold mbind, M_bind, bind.
  specialize (Hm k). destruct (m k) as [a k1|code k1|]; [|done..].
  specialize (Hf a k1). destruct (f a k1); congruence.
Qed.

Lemma keeps_list_get_state {A} (f : kstate -> M A) :
  (forall k, keeps_list (f k)) -> keeps_list (get_state ≫= f).
Proof. intros Hf k. apply (Hf k k). Qed.

Lemma keeps_list_log_event (ev : event) : keeps_list (modify (log_event ev)).
Proof. by intros k. Qed.

Lemma keeps_list_vmarea_alloc : keeps_list vmarea_alloc.
Proof.
  intros [l s a lp rc lg]. by destruct s as [|[raw|] s'].
Qed.

Lemma keeps_list_anon_create : keeps_list anon_create.
Proof.
  intros [l s a lp rc lg]. by destruct a as [|[o|] a'].
Qed.

Lemma keeps_list_lookuppage o p w : keeps_list (mmo_lookuppage o p w).
Proof. by intros k. Qed.

Lemma keeps_list_vnode_mmap file vma : keeps_list (vnode_mmap file vma).
Proof. by intros k. Qed.

Lemma keeps_list_for_pages (body : Z -> M unit) :
  (forall p, keeps_list (body p)) -> forall n p, keeps_list (for_pages n p body).
Proof.
  intros Hbody. induction n as [|n IH]; intros p; [apply keeps_list_ret|].
  apply keeps_list_bind; [apply Hbody | intros _; apply IH].
Qed.

Lemma keeps_list_map_touch_pages o lo hi : keeps_list (map_touch_pages o lo hi).
Proof.
  apply keeps_list_for_pages. intros p. unfold map_touch_page.
  apply keeps_list_bind; [apply keeps_list_lookuppage|]. intros [err pf].
  destruct (err <? 0); [|apply keeps_list_ret].
  apply keeps_list_bind; [apply keeps_list_KASSERT | intros _; apply keeps_list_return].
Qed.

Lemma errors_keep_list_bind {A B} (m : M A) (f : A -> M B) :
  keeps_list m -> (forall a, errors_keep_list (f a)) -> errors_keep_list (m ≫= f).
Proof.
  intros Hm Hf k. unfold mbind, M_bind, bind.
  specialize (Hm k). destruct (m k) as [a k1|code k1|]; [| |done].
  - specialize (Hf a k1). destruct (f a k1); [done| |done]. rewrite <- Hm. done.
  - done.
Qed.

Lemma errors_keep_list_return {A} (code : Z) : errors_keep_list (return_ (A := A) code).
Proof. by intros k. Qed.

Lemma vmmap_remove_no_return lo n k code k' : vmmap_remove lo n k <> Return code k'.
Proof.
  unfold vmmap_remove, call_int.
  by match goal with |- match ?t with _ => _ end <> _ => destruct t end.
Qed.

Lemma vmmap_insert_no_return v k code k' : vmmap_insert v k <> Return code k'.
Proof.
  unfold vmmap_insert, call_void.
  by match goal with |- match ?t with _ => _ end <> _ => destruct t end.
Qed.

(** The last statements of [vmmap_map], lines 402-412: the only status
    they leave with is [0]. *)
Lemma errors_keep_list_map_end (flags : Z) (remove : bool) (lopage npages : Z)
    (vma_result : vmarea) :
  errors_keep_list (A := Empty_set)
    ((if negb (Z.land flags MAP_PRIVATE =? 0) then mret tt else mret tt);;
     (if remove then vmmap_remove lopage npages;; mret tt else mret tt);;
     vmmap_insert vma_result;;
     return_ 0).
Proof.
  intros k. munfold.
  destruct (negb _); cbv beta iota.
  all: destruct remove; cbv beta iota.
  all: try (destruct (vmmap_remove lopage npages k) as [c k1|c k1|] eqn:Er;
            [|by apply vmmap_remove_no_return in Er|done]).
  all: match goal with |- context [vmmap_insert ?v ?k0] =>
         destruct (vmmap_insert v k0) as [c2 k2|c2 k2|] eqn:Ei;
         [done|by apply vmmap_insert_no_return in Ei|done]
       end.
Qed.

(** C4: whenever [vmmap_map] answers with a status other than [0]
    (the gap search failed, or the allocation of the region, or
    [anon_create], or a page lookup, or the [mmap] callback), the list
    of the map is the one it was called with. *)
Theorem map_error_leaves_list (file : option vnode) (lopage npages prot flags off dir : Z)
    (k : kstate) (code : Z) (k' : kstate) :
  vmmap_map file lopage npages prot flags off dir k = Next code k' ->
  code <> 0 ->
  k_vmm_list k' = k_vmm_list k.
Proof.
  intros Hr Hcode. unfold vmmap_map, call_int in Hr.
  match type of Hr with match ?body k with _ => _ end = _ =>
    assert (He : errors_keep_list body)
  end.
  { clear. apply errors_keep_list_bind; [apply keeps_list_KASSERT|]. intros _.
    apply errors_keep_list_bind; [apply keeps_list_vmarea_alloc|].
    intros [vma_result|]; [|apply errors_keep_list_return].
    apply errors_keep_list_bind.
    { destruct (lopage =? 0); [|apply keeps_list_ret].
      apply keeps_list_get_state. intros k.
      destruct (_ <? 0); [|apply keeps_list_ret].
      apply keeps_list_bind; [apply keeps_list_KASSERT | intros _; apply keeps_list_return]. }
    intros [lo remove].
    apply errors_keep_list_bind.
    { destruct file as [file|].
      - apply keeps_list_bind; [apply keeps_list_vnode_mmap|].
        intros [[err mmobj_ret] vma]. destruct (err <? 0); [|apply keeps_list_ret].
        apply keeps_list_bind; [apply keeps_list_KASSERT | intros _; apply keeps_list_return].
      - apply keeps_list_bind; [apply keeps_list_anon_create|].
        intros [o|]; [|apply keeps_list_return].
        apply keeps_list_bind; [apply keeps_list_map_touch_pages | intros _; apply keeps_list_ret]. }
    intros vma. apply errors_keep_list_map_end. }
  specialize (He k).
  match type of Hr with match ?t with _ => _ end = _ =>
    destruct t as [[]|c k1|]
  end; [|done].
  injection Hr as -> ->. by apply He.
Qed.

Lemma anon_create_mk l s o a lp rc lg :
  anon_create (mk_kstate l s (Some o :: a) lp rc lg)
  = Next (Some o) (mk_kstate l s a lp rc (lg ++ [EvAnonCreate])).
Proof. done. Qed.

Lemma map_touch_page_mk o p l s a lp rc lg :
  map_touch_page o p (mk_kstate l s a lp rc lg)
  = let k' := mk_kstate l s a lp rc (lg ++ [EvLookuppage o p 1]) in
    if (lp o p 1).1 <? 0 then
      if bool_decide ((lp o p 1).2 = None) then Return (lp o p 1).1 k' else Panic
    else Next tt k'.
Proof.
  unfold map_touch_page, mmo_lookuppage. munfold. simpl.
  destruct (lp o p 1) as [err pf]. simpl.
  destruct (err <? 0); [|done]. by destruct (bool_decide _).
Qed.

Lemma for_pages_S n p body k :
  for_pages (S n) p body k =
  match body p k with
  | Next _ k' => for_pages n (p + 1) body k'
  | Return code k' => Return code k'
  | Panic => Panic
  end.
Proof. reflexivity. Qed.

(** The loop over the pages when every lookup succeeds: one call of
    [lookuppage] for each page, in order, with the page number itself
    and [forwrite = 1]. *)
Lemma touch_pages_all o l s a lp rc (n : nat) : forall p lg,
  (forall q, p <= q < p + Z.of_nat n -> 0 <= (lp o q 1).1) ->
  for_pages n p (map_touch_page o) (mk_kstate l s a lp rc lg)
  = Next tt (mk_kstate l s a lp rc
               (lg ++ ((fun q => EvLookuppage o q 1) <$> seqZ p (Z.of_nat n)))).
Proof.
  induction n as [|n IH]; intros p lg Hok.
  - simpl. by rewrite app_nil_r.
  - rewrite for_pages_S, map_touch_page_mk. cbv zeta.
    destruct (Z.ltb_spec (lp o p 1).1 0) as [Hneg|_].
    { specialize (Hok p ltac:(lia)). lia. }
    rewrite IH by (intros q Hq; apply Hok; lia).
    rewrite (seqZ_cons p (Z.of_nat (S n))) by lia.
    replace (Z.pred (Z.of_nat (S n))) with (Z.of_nat n) by lia.
    by rewrite fmap_cons, <- app_assoc.
Qed.

(** The loop over the pages when the lookup of page [p0] is the first
    to fail: the loop leaves the function with that status after the
    call for [p0]. *)
Lemma touch_pages_fail o l s a lp rc (n : nat) : forall p lg p0,
  p <= p0 < p + Z.of_nat n ->
  (forall q, p <= q < p0 -> 0 <= (lp o q 1).1) ->
  (lp o p0 1).1 < 0 -> (lp o p0 1).2 = None ->
  for_pages n p (map_touch_page o) (mk_kstate l s a lp rc lg)
  = Return (lp o p0 1).1
      (mk_kstate l s a lp rc
         (lg ++ ((fun q => EvLookuppage o q 1) <$> seqZ p (p0 - p + 1)))).
Proof.
  induction n as [|n IH]; intros p lg p0 Hp0 Hok Herr Hpf; [lia|].
  rewrite for_pages_S, map_touch_page_mk. cbv zeta.
  rewrite (seqZ_cons p (p0 - p + 1)) by lia. rewrite fmap_cons.
  destruct (decide (p = p0)) as [->|Hne].
  - destruct (Z.ltb_spec (lp o p0 1).1 0); [|lia].
    rewrite Hpf, bool_decide_eq_true_2 by done.
    replace (Z.pred (p0 - p0 + 1)) with 0 by lia. by rewrite seqZ_nil.
  - destruct (Z.ltb_spec (lp o p 1).1 0) as [Hneg|_].
    { specialize (Hok p ltac:(lia)). lia. }
    rewrite (IH (p + 1) _ p0) by (try done; try lia; intros q Hq; apply Hok; lia).
    replace (Z.pred (p0 - p + 1)) with (p0 - (p + 1) + 1) by lia.
    by rewrite <- app_assoc.
Qed.

(** C10: [vmmap_map] with [file = NULL], once the region and the
    anonymous object [o] are allocated and the range starts at [lo]
    ([lopage], or the answer of the gap search when [lopage = 0]).
    First part: when every lookup succeeds, the calls made before the
    removal and the insertion are [lookuppage(o, p, 1)] for
    [p = lo, ..., lo + npages - 1] in this order, each with the page
    number [p] itself; the list is untouched until then, and the call
    goes on with the removal (for a caller-chosen [lopage]) and the
    insertion of the region.  Second part: when the lookup of page [p0]
    is the first to fail, the call answers with the status of that
    lookup right after it, and the list is the one it was called
    with. *)
Theorem map_anon_touches_every_page_first (lopage npages prot flags off dir : Z)
    (k : kstate) (raw : vmarea) (slab' : list (option vmarea))
    (o : mmobj) (anon' : list (option mmobj)) (lo : Z) :
  PAGE_ALIGNED off = true ->
  k_slab k = Some raw :: slab' ->
  k_anon k = Some o :: anon' ->
  (if lopage =? 0
   then 0 <= vmmap_find_range (k_vmm_list k) npages dir
        /\ lo = u32 (vmmap_find_range (k_vmm_list k) npages dir)
   else lo = lopage) ->
  0 <= lo -> 0 <= npages -> lo + npages < 2 ^ 32 ->
  let touched n :=
    [EvSlabAlloc; EvAnonCreate] ++ ((fun p => EvLookuppage o p 1) <$> seqZ lo n) in
  let after n :=
    mk_kstate (k_vmm_list k) slab' anon' (k_lookuppage k) (k_refcount k)
              (k_log k ++ touched n) in
  let vma_result := mk_vmarea lo (lo + npages) 0 prot flags false (Some o) in
  ((forall p, lo <= p < lo + npages -> 0 <= (k_lookuppage k o p 1).1) ->
   vmmap_map None lopage npages prot flags off dir k
   = call_int ((if lopage =? 0 then mret tt else vmmap_remove lo npages;; mret tt);;
               vmmap_insert vma_result;;
               return_ 0)
       (after npages))
  /\
  (forall p0,
     lo <= p0 < lo + npages ->
     (forall p, lo <= p < p0 -> 0 <= (k_lookuppage k o p 1).1) ->
     (k_lookuppage k o p0 1).1 < 0 ->
     (k_lookuppage k o p0 1).2 = None ->
     vmmap_map None lopage npages prot flags off dir k
     = Next (k_lookuppage k o p0 1).1 (after (p0 - lo + 1))).
Proof.
  destruct k as [l s a lp rc lg].
  intros Hal Hs Ha Hlo Hlo0 Hn Hhi touched after vma_result.
  cbn [k_slab k_anon k_vmm_list k_lookuppage k_refcount k_log] in *. subst s a.
  assert (Hu : u32 (lo + npages) = lo + npages) by (apply u32_id; lia).
  assert (Hfr : (lopage =? 0) = true -> (vmmap_find_range l npages dir <? 0) = false).
  { intros E. rewrite E in Hlo. apply Z.ltb_ge. tauto. }
  assert (Hlo' : lo = if lopage =? 0 then u32 (vmmap_find_range l npages dir) else lopage).
  { destruct (lopage =? 0); tauto. }
  clear Hlo.
  unfold vmmap_map, call_int.
  split; [intros Hok | intros p0 Hp0 Hok Herr Hpf].
  all: munfold; rewrite Hal; munfold; rewrite vmarea_alloc_mk; munfold.
  all: destruct (lopage =? 0); munfold; cbn [k_vmm_list];
       rewrite ?Hfr by done; munfold; subst lo.
  all: rewrite anon_create_mk; munfold; rewrite Hu; unfold map_touch_pages.
  all: match goal with |- context [for_pages (Z.to_nat (?x + ?n - ?x))] =>
         replace (x + n - x) with n by lia
       end.
  1,2: rewrite touch_pages_all by (intros q Hq; apply Hok; lia).
  3,4: rewrite (touch_pages_fail _ _ _ _ _ _ _ _ _ p0) by (done || lia).
  all: subst after touched vma_result; cbv beta; rewrite ?Z2Nat.id by lia.
  all: rewrite <- !app_assoc; cbn [app].
  all: first [reflexivity | by destruct (negb _)].
Qed.

End Map.

Lemma map_error_leaves_list_witness :
  let k := example_state [area 105 115] 0 0 in
  k_vmm_list (log_event EvSlabAlloc k) = k_vmm_list k.
Proof.
  intros k.
  apply (map_error_leaves_list (cfg := small_config) None 100 10 3 1 0 0 k
           (- ENOSPC (kconfig := small_config)) (log_event EvSlabAlloc k)).
  - reflexivity.
  - vm_compute. discriminate.
Defined.

Lemma map_anon_touches_every_page_first_witness :
  let k := example_state [] 1 1 in
  vmmap_map (cfg := small_config) None 100 3 3 1 0 0 k
  = call_int ((vmmap_remove (cfg := small_config) 100 3;; mret tt);;
              vmmap_insert (mk_vmarea 100 (100 + 3) 0 3 1 false (Some (MmAnon 0)));;
              return_ 0)
      (mk_kstate [] [] [] (k_lookuppage k) (k_refcount k)
         ([] ++ [EvSlabAlloc; EvAnonCreate]
             ++ ((fun p => EvLookuppage (MmAnon 0) p 1) <$> seqZ 100 3))).
Proof.
  intros k.
  apply (proj1 (map_anon_touches_every_page_first (cfg := small_config)
                  100 3 3 1 0 0 k raw_area [] (MmAnon 0) [] 100
                  ltac:(reflexivity) ltac:(reflexivity) ltac:(reflexivity)
                  ltac:(reflexivity) ltac:(lia) ltac:(lia) ltac:(lia))).
  intros p Hp. simpl. lia.
Defined.

(** ** [vmmap_remove] and [vmmap_map] on concrete maps *)

(** C5: the map [10,20), [22,25) is in order.  [vmmap_remove(30, 5)]
    touches neither region, yet the tests of case 2 hold for both and
    both get [end = 30]: the list becomes [10,30), [22,30), where the
    first region ends after the second begins.  [vmmap_map] at a fixed
    [lopage = 30] goes through the same removal and ends with
    [10,30), [22,30), [30,35). *)
Theorem remove_outside_range_breaks_order :
  let l := [area 10 20; area 22 25] in
  areas_ordered l = true
  /\ code_and_list (vmmap_remove (cfg := small_config) 30 5 (example_state l 0 0))
     = Some (0, [area 10 30; area 22 30])
  /\ areas_ordered [area 10 30; area 22 30] = false
  /\ code_and_list
       (vmmap_map (cfg := small_config) None 30 5 3 1 0 0 (example_state l 1 1))
     = Some (0, [area 10 30; area 22 30;
                 mk_vmarea 30 35 0 3 1 true (Some (MmAnon 0))])
  /\ areas_ordered [area 10 30; area 22 30;
                    mk_vmarea 30 35 0 3 1 true (Some (MmAnon 0))] = false.
Proof. vm_compute. repeat split; reflexivity. Qed.

(** C2: [vmmap_map] of an anonymous [MAP_PRIVATE] mapping at
    [100, 110) over a map holding [105, 115) succeeds; the object of
    the new region is [MmAnon 0], the object [anon_create] gave, and
    not a shadow object over it: the body of the [MAP_PRIVATE] test is
    empty. *)
Theorem map_private_gets_no_shadow :
  let k := example_state [mk_vmarea 105 115 0 0 0 true (Some (MmAnon 9))] 1 1 in
  let flags := MAP_PRIVATE (kconfig := small_config) in
  k_anon k = [Some (MmAnon 0)]
  /\ Z.land flags (MAP_PRIVATE (kconfig := small_config)) <> 0
  /\ code_and_list (vmmap_map (cfg := small_config) None 100 10 3 flags 0 0 k)
     = Some (0, [mk_vmarea 100 110 0 3 flags true (Some (MmAnon 0));
                 mk_vmarea 110 115 5 0 0 true (Some (MmAnon 9))])
  /\ is_shadow_over (MmAnon 0) (MmAnon 0) = false.
Proof. vm_compute. repeat split; congruence. Qed.

(** C8: [vmmap_map] called with [off] of two pages makes a region whose
    [vma_off] is [0]: line 359 stores the constant, not the argument. *)
Theorem map_ignores_off :
  let off := 2 * PAGE_SIZE (kconfig := small_config) in
  PAGE_ALIGNED (cfg := small_config) off = true
  /\ off / PAGE_SIZE (kconfig := small_config) = 2
  /\ code_and_list
       (vmmap_map (cfg := small_config) None 100 10 3 1 off 0 (example_state [] 1 1))
     = Some (0, [mk_vmarea 100 110 0 3 1 true (Some (MmAnon 0))]).
Proof. vm_compute. repeat split; reflexivity. Qed.

(** C9: [vmmap_map] of a file whose [mmap] callback succeeds with the
    object [MmVnode 7] and leaves the region as it got it: the region
    is inserted with [vma_obj] as the allocator left it ([NULL] here),
    the object of the callback is stored nowhere. *)
Theorem map_file_drops_callback_object :
  let file := mk_vnode 3 (fun vma => (0, Some (MmVnode 7), vma)) in
  vma_obj raw_area = None
  /\ code_and_list
       (vmmap_map (cfg := small_config) (Some file) 100 10 3 1 0 0 (example_state [] 1 0))
     = Some (0, [mk_vmarea 100 110 0 3 1 true None]).
Proof. vm_compute. repeat split; reflexivity. Qed.

(** * Further properties of the code *)

(** ** [vmmap_find_range] on a valid map *)

Lemma to_int_id (x : Z) : 0 <= x < 2 ^ 31 -> to_int x = x.
Proof. intros H. unfold to_int. destruct (Z.ltb_spec x (2 ^ 31)); lia. Qed.

Lemma areas_ordered_cons (a b : vmarea) (l : list vmarea) :
  areas_ordered (a :: b :: l) = true <->
  vma_end a <= vma_start b /\ areas_ordered (b :: l) = true.
Proof.
  change (areas_ordered (a :: b :: l))
    with ((vma_end a <=? vma_start b) && areas_ordered (b :: l)).
  rewrite andb_true_iff, Z.leb_le. done.
Qed.

Lemma areas_ordered_tail (a : vmarea) (l : list vmarea) :
  areas_ordered (a :: l) = true -> areas_ordered l = true.
Proof. destruct l as [|b l]; [done|]. rewrite areas_ordered_cons. tauto. Qed.

Section FindRange.
Context {cfg : kconfig}.

Lemma vmmap_valid_tail (a : vmarea) (l : list vmarea) :
  vmmap_valid (a :: l) -> vmmap_valid l.
Proof.
  intros [Ho Hw]. split; [by eapply areas_ordered_tail|].
  by apply Forall_cons_iff in Hw as [_ Hw].
Qed.

(** In a valid map every region ends before the regions after it
    start. *)
Lemma vmmap_valid_after (a : vmarea) (l : list vmarea) :
  vmmap_valid (a :: l) -> Forall (fun vma => vma_end a <= vma_start vma) l.
Proof.
  revert a. induction l as [|b l IH]; intros a Hv; [constructor|].
  pose proof Hv as [Ho Hw]. apply areas_ordered_cons in Ho as [Hab Ho].
  apply Forall_cons_iff in Hw as [Ha Hw]. apply Forall_cons_iff in Hw as [Hb Hw].
  constructor; [done|].
  assert (Hbl : vmmap_valid (b :: l)) by (split; [done | by constructor]).
  specialize (IH b Hbl). eapply List.Forall_impl; [|exact IH].
  simpl. intros vma Hvma. destruct Hb as [Hb _]. lia.
Qed.

Lemma vmmap_valid_split (pre : list vmarea) (x : vmarea) (post : list vmarea) :
  vmmap_valid (pre ++ x :: post) ->
  area_in_window x /\
  Forall (fun vma => vma_end vma <= vma_start x) pre /\
  Forall (fun vma => vma_end x <= vma_start vma) post.
Proof.
  induction pre as [|a pre IH]; intros Hv.
  - split; [|split; [constructor | by apply vmmap_valid_after]].
    destruct Hv as [_ Hw]. by apply Forall_cons_iff in Hw as [Hx _].
  - simpl in Hv. pose proof (vmmap_valid_after _ _ Hv) as Ha.
    destruct (IH (vmmap_valid_tail _ _ Hv)) as (Hx & Hpre & Hpost).
    split; [done|]. split; [|done]. constructor; [|done].
    apply Forall_app in Ha as [_ Ha]. apply Forall_cons_iff in Ha as [Ha _].
    destruct Hv as [_ Hw]. apply Forall_cons_iff in Hw as [[Hwa _] _]. lia.
Qed.

Lemma range_free_is_empty (l : list vmarea) (s n : Z) :
  0 <= s + n < 2 ^ 32 ->
  (vmmap_is_range_empty l s n = true <-> range_free l s n).
Proof. intros H. by rewrite is_range_empty_Forall, u32_id. Qed.

Lemma range_blocked_not_empty (l : list vmarea) (s n : Z) :
  0 <= s + n < 2 ^ 32 ->
  range_blocked l s n -> vmmap_is_range_empty l s n = false.
Proof.
  intros H Hb. apply not_true_is_false. rewrite range_free_is_empty by done.
  unfold range_free, range_blocked in *. rewrite Forall_forall.
  apply Exists_exists in Hb as (vma & Hin & Hvma). intros Hf.
  specialize (Hf vma Hin). simpl in Hf. lia.
Qed.

Lemma find_range_lohi_spec (npages : Z) (rest : list vmarea) :
  forall pre vma_prev,
  USER_PAGE_HIGH < 2 ^ 31 -> 1 <= npages < 2 ^ 32 ->
  vmmap_valid (pre ++ vma_prev :: rest) ->
  (forall s, 0 <= s < vma_end vma_prev ->
             range_blocked (pre ++ vma_prev :: rest) s npages) ->
  let l := pre ++ vma_prev :: rest in
  let r := find_range_lohi npages vma_prev rest in
  (r = -1 /\ none_fits l npages) \/
  (found l npages r /\ forall s, 0 <= s < r -> range_blocked l s npages).
Proof.
  induction rest as [|vma_cur rest IH]; intros pre vma_prev Hcfg Hn Hv Hinv l r.
  - destruct (vmmap_valid_split _ _ _ Hv) as ([Hp1 Hp2] & Hpre & _).
    subst r. cbn [find_range_lohi].
    rewrite u32_id by lia.
    destruct (Z.geb_spec (USER_PAGE_HIGH - vma_end vma_prev) npages) as [Hfit|Hno].
    + right. rewrite to_int_id by lia. split; [|done].
      split; [lia|]. split; [lia|].
      apply Forall_app. split; [|constructor; [lia|constructor]].
      eapply List.Forall_impl; [|exact Hpre]. simpl. intros vma Hvma. lia.
    + left. split; [done|]. intros s Hs Hs'. apply Hinv. lia.
  - destruct (vmmap_valid_split _ _ _ Hv) as ([Hp1 Hp2] & Hpre & Hpost).
    pose proof Hv as Hv'.
    replace (pre ++ vma_prev :: vma_cur :: rest)
      with ((pre ++ [vma_prev]) ++ vma_cur :: rest) in Hv' by (by rewrite <- app_assoc).
    destruct (vmmap_valid_split _ _ _ Hv') as ([Hc1 Hc2] & Hpre' & Hpost').
    apply Forall_cons_iff in Hpost as [Hpc Hpost].
    subst r. cbn [find_range_lohi].
    rewrite u32_id by lia.
    destruct (Z.geb_spec (vma_start vma_cur - vma_end vma_prev) npages) as [Hfit|Hno].
    + right. rewrite to_int_id by lia. split; [|done].
      split; [lia|]. split; [lia|].
      apply Forall_app. split; [|constructor; [lia|constructor; [lia|]]].
      * eapply List.Forall_impl; [|exact Hpre]. simpl. intros vma Hvma. lia.
      * eapply List.Forall_impl; [|exact Hpost']. simpl. intros vma Hvma. lia.
    + specialize (IH (pre ++ [vma_prev]) vma_cur Hcfg Hn Hv').
      subst l. replace (pre ++ vma_prev :: vma_cur :: rest)
        with ((pre ++ [vma_prev]) ++ vma_cur :: rest) in * by (by rewrite <- app_assoc).
      apply IH. intros s Hs.
      destruct (Z.lt_ge_cases s (vma_end vma_prev)) as [Hlt|Hge]; [apply Hinv; lia|].
      apply Exists_exists. exists vma_cur. split; [|lia].
      apply list_elem_of_In, elem_of_app. right. by left.
Qed.



Lemma vmmap_find_range_lohi_found (l : list vmarea) (npages dir : Z) :
  USER_PAGE_HIGH < 2 ^ 31 -> 1 <= npages < 2 ^ 32 ->
  vmmap_valid l -> (l = [] -> npages <= USER_PAGE_HIGH) ->
  dir = VMMAP_DIR_LOHI \/ dir = 0 ->
  let r := vmmap_find_range l npages dir in
  (r = -1 /\ none_fits l npages) \/
  (found l npages r /\ forall s, 0 <= s < r -> range_blocked l s npages).
Proof.
  intros Hcfg Hn Hv Hnil Hdir r.
  subst r. unfold vmmap_find_range.
  replace ((dir =? VMMAP_DIR_LOHI) || (dir =? 0)) with true
    by (symmetry; apply orb_true_iff; rewrite !Z.eqb_eq; done).
  destruct l as [|vma_cur rest].
  - right. split; [|lia]. split; [lia|]. split; [|constructor].
    specialize (Hnil eq_refl). lia.
  - destruct (vmmap_valid_split [] _ _ Hv) as ([Hc1 Hc2] & _ & Hpost).
    destruct (Z.geb_spec (vma_start vma_cur) npages) as [Hfit|Hno].
    + right. split; [|lia]. split; [lia|]. split; [lia|].
      constructor; [lia|].
      eapply List.Forall_impl; [|exact Hpost]. simpl. intros vma Hvma. lia.
    + apply (find_range_lohi_spec npages rest [] vma_cur Hcfg Hn Hv).
      intros s Hs. apply Exists_exists. exists vma_cur. split; [by left | lia].
Qed.



(** X1: on a valid map (regions in order, each inside the window),
    the low-to-high search for [npages >= 1] pages answers [-1] only
    when no range of [npages] pages is free inside the window;
    otherwise it answers the lowest start of a free range of [npages]
    pages inside the window. *)
Theorem find_range_lohi_first_fit (l : list vmarea) (npages dir : Z) :
  USER_PAGE_HIGH < 2 ^ 31 -> 1 <= npages < 2 ^ 32 ->
  vmmap_valid l -> (l = [] -> npages <= USER_PAGE_HIGH) ->
  dir = VMMAP_DIR_LOHI \/ dir = 0 ->
  let r := vmmap_find_range l npages dir in
  (r = -1 /\
   forall s, 0 <= s -> s + npages <= USER_PAGE_HIGH ->
             vmmap_is_range_empty l s npages = false)
  \/
  (0 <= r /\ r + npages <= USER_PAGE_HIGH /\
   vmmap_is_range_empty l r npages = true /\
   forall s, 0 <= s < r -> vmmap_is_range_empty l s npages = false).
Proof.
  intros Hcfg Hn Hv Hnil Hdir r.
  destruct (vmmap_find_range_lohi_found l npages dir Hcfg Hn Hv Hnil Hdir)
    as [[Hr Hnone]|[(Hr0 & Hr1 & Hfree) Hlow]]; [left|right].
  - split; [done|]. intros s Hs Hs'. apply range_blocked_not_empty; [lia|].
    by apply Hnone.
  - split; [done|]. split; [done|]. split.
    + apply range_free_is_empty; [lia | done].
    + intros s Hs. apply range_blocked_not_empty; [fold r; lia|]. by apply Hlow.
Qed.

End FindRange.

(** ** [vmmap_insert] and [vmmap_lookup] *)

Lemma insert_scan_split (newvma : vmarea) (l : list vmarea) (vma_prev : vmarea) :
  exists l1 l2, l = l1 ++ l2 /\
                insert_scan newvma vma_prev l = l1 ++ set_vma_vmmap true newvma :: l2.
Proof.
  revert vma_prev. induction l as [|vma_cur rest IH]; intros vma_prev.
  - by exists [], [].
  - cbn [insert_scan]. destruct (_ && _).
    + by exists [], (vma_cur :: rest).
    + destruct (IH vma_cur) as (l1 & l2 & -> & ->). by exists (vma_cur :: l1), l2.
Qed.

Lemma insert_areas_split (newvma : vmarea) (l : list vmarea) :
  exists l1 l2, l = l1 ++ l2 /\
                insert_areas newvma l = l1 ++ set_vma_vmmap true newvma :: l2.
Proof.
  destruct l as [|vma_cur rest]; [by exists [], []|].
  cbn [insert_areas]. destruct (_ <=? _).
  - by exists [], (vma_cur :: rest).
  - destruct (insert_scan_split newvma rest vma_cur) as (l1 & l2 & -> & ->).
    by exists (vma_cur :: l1), l2.
Qed.

Lemma lookup_areas_app (l1 l2 : list vmarea) (v : Z) :
  lookup_areas (l1 ++ l2) v =
  match lookup_areas l1 v with
  | Some vma => Some vma
  | None => lookup_areas l2 v
  end.
Proof.
  induction l1 as [|vma l1 IH]; [done|]. simpl. by destruct (_ && _).
Qed.

Lemma lookup_insert_areas (newvma : vmarea) (l : list vmarea) (vfn : Z) :
  Forall (areas_disjoint newvma) l ->
  lookup_areas (insert_areas newvma l) vfn =
  if (vma_start newvma <=? vfn) && (vfn <? vma_end newvma)
  then Some (set_vma_vmmap true newvma)
  else lookup_areas l vfn.
Proof.
  intros Hdis.
  destruct (insert_areas_split newvma l) as (l1 & l2 & Hl & ->).
  rewrite Hl in Hdis |- *. apply Forall_app in Hdis as [Hd1 Hd2].
  rewrite !lookup_areas_app. cbn [lookup_areas vma_start vma_end set_vma_vmmap].
  rewrite Z.geb_leb.
  destruct (Z.leb_spec (vma_start newvma) vfn), (Z.ltb_spec vfn (vma_end newvma));
    cbn [andb]; try done.
  assert (Hnone : forall l0, Forall (areas_disjoint newvma) l0 -> lookup_areas l0 vfn = None).
  { intros l0 Hd. apply lookup_areas_None. eapply List.Forall_impl; [|exact Hd].
    unfold areas_disjoint. simpl. intros vma Hvma. lia. }
  by rewrite (Hnone l1 Hd1).
Qed.

Lemma insert_areas_valid {cfg : kconfig} (newvma : vmarea) (l : list vmarea) :
  vmmap_valid l -> area_in_window newvma ->
  Forall (areas_disjoint newvma) l ->
  vmmap_valid (insert_areas newvma l).
Proof.
  intros [Hord Hwin] Hnew Hdis. split.
  - by apply insert_areas_ordered.
  - destruct (insert_areas_split newvma l) as (l1 & l2 & Hl & ->).
    rewrite Hl in Hwin. apply Forall_app in Hwin as [Hw1 Hw2].
    apply Forall_app. split; [done|]. by constructor.
Qed.

Section InsertLookup.
Context {cfg : kconfig}.

(** X5: after [vmmap_insert] of a region with at least one page that
    is disjoint from the regions of the map, [vmmap_lookup] answers the
    new region (now owned by the map) at each of its pages, and what it
    answered before at every other page. *)
Theorem vmmap_insert_then_lookup (newvma : vmarea) (k : kstate) :
  vma_start newvma < vma_end newvma ->
  Forall (areas_disjoint newvma) (k_vmm_list k) ->
  exists k',
    vmmap_insert newvma k = Next tt k' /\
    forall vfn, vfn < USER_PAGE_HIGH ->
      vmmap_lookup (k_vmm_list k') vfn =
      Ok (if (vma_start newvma <=? vfn) && (vfn <? vma_end newvma)
          then Some (set_vma_vmmap true newvma)
          else lookup_areas (k_vmm_list k) vfn).
Proof.
  intros Hne Hdis. unfold vmmap_insert, call_void. munfold. zbool.
  eexists. split; [reflexivity|]. cbn [k_vmm_list set_k_vmm_list].
  intros vfn Hv. unfold vmmap_lookup, valid_pagenumber. zbool. f_equal.
  by apply lookup_insert_areas.
Qed.

(** X6: [vmmap_lookup] stops the kernel exactly for a page number
    outside the window; otherwise its answer is a region of the map
    that holds the page, or [NULL] when no region of the map does. *)
Theorem vmmap_lookup_spec (l : list vmarea) (vfn : Z) :
  match vmmap_lookup l vfn with
  | Ok (Some vma) =>
      vfn < USER_PAGE_HIGH /\ vma ∈ l /\ vma_start vma <= vfn < vma_end vma
  | Ok None =>
      vfn < USER_PAGE_HIGH /\ forall vma, vma ∈ l -> ~ (vma_start vma <= vfn < vma_end vma)
  | Panicked => USER_PAGE_HIGH <= vfn
  end.
Proof.
  unfold vmmap_lookup, valid_pagenumber.
  destruct (Z.ltb_spec vfn USER_PAGE_HIGH) as [Hv|Hv]; [|done].
  destruct (lookup_areas l vfn) as [vma|] eqn:El.
  - split; [done|]. induction l as [|a l IH]; [done|]. simpl in El.
    destruct (Z.geb_spec vfn (vma_start a)), (Z.ltb_spec vfn (vma_end a));
      simpl in El; try (destruct (IH El) as [Hin Hr]; split; [by right | done]).
    injection El as <-. split; [by left | lia].
  - split; [done|]. apply lookup_areas_None in El. rewrite Forall_forall in El.
    intros vma Hin. apply El. by apply list_elem_of_In.
Qed.
(** X3: [vmmap_insert] of a region with at least one page links it
    (owned by the map) somewhere in the list and leaves every region of
    the list as it was, in the order they were; for a region with
    [end <= start] it stops the kernel. *)
Theorem vmmap_insert_links_region (newvma : vmarea) (k : kstate) :
  (vma_start newvma < vma_end newvma ->
   exists k' l1 l2,
     vmmap_insert newvma k = Next tt k'
     /\ k_vmm_list k = l1 ++ l2
     /\ k_vmm_list k' = l1 ++ set_vma_vmmap true newvma :: l2
     /\ k_refcount k' = k_refcount k /\ k_log k' = k_log k)
  /\ (vma_end newvma <= vma_start newvma -> vmmap_insert newvma k = Panic).
Proof.
  split; intros Hne; unfold vmmap_insert, call_void; munfold; zbool; [|done].
  destruct (insert_areas_split newvma (k_vmm_list k)) as (l1 & l2 & Hl & Hi).
  eexists _, l1, l2. split; [reflexivity|]. by rewrite <- Hi.
Qed.

(** X4: [vmmap_insert] keeps the invariant of the map: when the map is
    valid and the new region lies inside the window and is disjoint
    from the regions of the map, the map is valid afterwards. *)
Theorem vmmap_insert_keeps_valid (newvma : vmarea) (k : kstate) :
  vmmap_valid (k_vmm_list k) ->
  area_in_window newvma ->
  Forall (areas_disjoint newvma) (k_vmm_list k) ->
  exists k', vmmap_insert newvma k = Next tt k' /\ vmmap_valid (k_vmm_list k').
Proof.
  intros Hv Hnew Hdis. pose proof Hnew as [Hn1 Hn2].
  unfold vmmap_insert, call_void. munfold. zbool.
  eexists. split; [reflexivity|]. cbn [k_vmm_list set_k_vmm_list].
  by apply insert_areas_valid.
Qed.
End InsertLookup.

(** ** What [vmmap_remove] leaves *)

Lemma count_obj_app (o : mmobj) (l1 l2 : list vmarea) :
  count_obj o (l1 ++ l2) = count_obj o l1 + count_obj o l2.
Proof. induction l1 as [|v l1 IH]; simpl; [done|]. rewrite IH. lia. Qed.

Section RemovePost.
Context {cfg : kconfig}.
Implicit Types (l done rest : list vmarea) (v vma : vmarea) (k : kstate).

Lemma remove_body_post lo hi done v rest k :
  k_vmm_list k = done ++ v :: rest ->
  match remove_body lo hi (length done) k with
  | Next i' k' =>
      exists vs, k_vmm_list k' = done ++ vs ++ rest /\ i' = length (done ++ vs) /\
                 Forall (remove_piece lo hi v) vs /\
                 forall o, k_refcount k' o - count_obj o vs
                           = k_refcount k o - count_obj o [v]
  | Return _ k' => k_vmm_list k' = k_vmm_list k /\ k_refcount k' = k_refcount k
  | Panic => True
  end.
Proof.
  destruct k as [l s a lp rc lg]. simpl. intros ->.
  rewrite remove_body_unfold, remove_case1_mk.
  destruct (Z.ltb_spec (vma_start v) lo) as [Hs|Hs],
           (Z.leb_spec (vma_end v) hi) as [He|He].
  all: zb.
  - (* case 2 *)
    (munfold;
     rewrite remove_case2_mk; fields; zb;
     rewrite remove_case3_mk; fields; zb;
     rewrite remove_case4_mk; fields; zb). eexists [_]. split; [done|]. split; [by rewrite length_app, Nat.add_1_r|].
    split; [constructor; [piece|constructor] | counts].
  - (* case 1 *)
    destruct s as [|[raw|] s']; [done| |done].
    destruct (vma_obj v) as [o0|] eqn:Ho; [|done].
    match goal with |- context [done ++ ?x :: ?y :: rest] =>
      replace (done ++ x :: y :: rest) with ((done ++ [x]) ++ y :: rest)
        by (by rewrite <- app_assoc);
      replace (S (length done)) with (length (done ++ [x]))
        by (rewrite length_app; simpl; lia)
    end.
    destruct (Z.ltb_spec hi lo) as [Hw|Hw].
    all: (munfold;
     rewrite remove_case2_mk; fields; zb;
     rewrite remove_case3_mk; fields; zb;
     rewrite remove_case4_mk; fields; zb).
    all: eexists [_; _]; rewrite <- !app_assoc; cbn [app].
    all: split; [done|]; split; [by rewrite !length_app; simpl; lia|].
    all: split; [constructor; [piece | constructor; [piece | constructor]] | counts].
  - (* case 4 *)
    (munfold;
     rewrite remove_case2_mk; fields; zb;
     rewrite remove_case3_mk; fields; zb;
     rewrite remove_case4_mk; fields; zb). destruct (vma_obj v) as [o0|] eqn:Ho; [|done].
    exists []. rewrite app_nil_r. split; [done|]. split; [done|].
    split; [constructor | counts].
  - (* case 3 *)
    (munfold;
     rewrite remove_case2_mk; fields; zb;
     rewrite remove_case3_mk; fields; zb;
     rewrite remove_case4_mk; fields; zb). eexists [_]. split; [done|]. split; [by rewrite length_app, Nat.add_1_r|].
    split; [constructor; [piece|constructor] | counts].
Qed.

(** The loop of [vmmap_remove] over the regions [todo]: what it leaves
    of them, when it visits them all and when it stops at a failed
    allocation with the regions [left] not visited. *)
Lemma remove_iter_post lo hi todo : forall done rest k,
  k_vmm_list k = done ++ todo ++ rest ->
  match remove_iter lo hi (length todo) (length done) k with
  | Next i' k' =>
      exists vs, k_vmm_list k' = done ++ vs ++ rest /\ i' = length (done ++ vs) /\
                 Forall (fun V => exists v, v ∈ todo /\ remove_piece lo hi v V) vs /\
                 forall o, k_refcount k' o - count_obj o vs
                           = k_refcount k o - count_obj o todo
  | Return _ k' =>
      exists vs pre left,
        k_vmm_list k' = done ++ vs ++ left ++ rest /\ todo = pre ++ left /\
        Forall (fun V => exists v, v ∈ todo /\ remove_piece lo hi v V) vs /\
        forall o, k_refcount k' o - count_obj o (vs ++ left)
                  = k_refcount k o - count_obj o todo
  | Panic => True
  end.
Proof.
  induction todo as [|v todo IH]; intros done rest k Hl.
  - simpl. exists []. rewrite app_nil_r. split; [done|]. split; [done|].
    split; [constructor|]. intros o. simpl. lia.
  - cbn [length]. rewrite remove_iter_S.
    pose proof (remove_body_post lo hi done v (todo ++ rest) k Hl) as Hb.
    destruct (remove_body lo hi (length done) k) as [i' k1|code k1|]; [| |done].
    + destruct Hb as (vs & Hl1 & -> & Hvs & Hrc). rewrite app_assoc in Hl1.
      specialize (IH (done ++ vs) rest k1 Hl1).
      assert (Hvs' : Forall (fun V => exists v0, v0 ∈ v :: todo /\ remove_piece lo hi v0 V) vs).
      { eapply List.Forall_impl; [|exact Hvs]. simpl. intros V HV.
        exists v. split; [by left | done]. }
      assert (Hlift : forall ws,
                Forall (fun V => exists v0, v0 ∈ todo /\ remove_piece lo hi v0 V) ws ->
                Forall (fun V => exists v0, v0 ∈ v :: todo /\ remove_piece lo hi v0 V) ws).
      { intros ws Hws. eapply List.Forall_impl; [|exact Hws]. simpl.
        intros V (v0 & Hin & HV). exists v0. split; [by right | done]. }
      destruct (remove_iter lo hi (length todo) (length (done ++ vs)) k1)
        as [i'' k2|code k2|]; [| |done].
      * destruct IH as (vs' & Hl2 & -> & Hvs2 & Hrc2). exists (vs ++ vs').
        rewrite Hl2, <- !app_assoc. split; [done|]. split; [done|].
        split; [apply Forall_app; split; [done | by apply Hlift]|].
        intros o. specialize (Hrc o). specialize (Hrc2 o).
        rewrite count_obj_app. simpl in Hrc |- *. lia.
      * destruct IH as (vs' & pre & left & Hl2 & -> & Hvs2 & Hrc2).
        exists (vs ++ vs'), (v :: pre), left.
        rewrite Hl2, <- !app_assoc. split; [done|]. split; [done|].
        split; [apply Forall_app; split; [done | by apply Hlift]|].
        intros o. specialize (Hrc o). specialize (Hrc2 o).
        rewrite !count_obj_app in *. simpl in Hrc |- *. rewrite !count_obj_app. lia.
    + destruct Hb as [Hl1 Hrc]. exists [], [], (v :: todo). simpl.
      rewrite Hl1, Hl, Hrc. split; [done|]. split; [done|]. split; [constructor|]. done.
Qed.

Lemma vmmap_remove_post lo n k code k' :
  vmmap_remove lo n k = Next code k' ->
  (code = 0 \/ code = - ENOSPC) /\
  (forall o, k_refcount k' o - count_obj o (k_vmm_list k')
             = k_refcount k o - count_obj o (k_vmm_list k)) /\
  exists vs pre left,
    k_vmm_list k' = vs ++ left /\ k_vmm_list k = pre ++ left /\
    (ENOSPC <> 0 -> code = 0 -> left = []) /\
    Forall (fun V => exists v, v ∈ k_vmm_list k /\ remove_piece lo (u32 (lo + n)) v V) vs.
Proof.
  intros Hr. rewrite vmmap_remove_unfold in Hr.
  pose proof (remove_iter_post lo (u32 (lo + n)) (k_vmm_list k) [] [] k) as Hp.
  pose proof (remove_iter_frame lo (u32 (lo + n)) (k_vmm_list k) [] [] k) as Hf.
  rewrite app_nil_r in Hp, Hf. specialize (Hp eq_refl). specialize (Hf eq_refl).
  cbn [length app] in Hp, Hf.
  destruct (remove_iter lo (u32 (lo + n)) (length (k_vmm_list k)) 0 k)
    as [i k1|c k1|]; [| |done]; injection Hr as <- <-.
  - destruct Hp as (vs & Hl & _ & Hvs & Hrc). rewrite app_nil_r in Hl.
    split; [by left|]. split; [intros o; rewrite Hl; apply Hrc|].
    exists vs, (k_vmm_list k), []. by rewrite !app_nil_r.
  - destruct Hp as (vs & pre & left & Hl & Hk & Hvs & Hrc). rewrite app_nil_r in Hl.
    destruct Hf as [-> _]. split; [by right|]. split; [intros o; rewrite Hl; apply Hrc|].
    exists vs, pre, left. split; [done|]. split; [done|]. split; [lia | done].
Qed.



Lemma vmmap_remove_origin (lo n : Z) (k : kstate) (code : Z) (k' : kstate)
    (V : vmarea) :
  vmmap_remove lo n k = Next code k' ->
  V ∈ k_vmm_list k' ->
  exists v, v ∈ k_vmm_list k
            /\ vma_obj V = vma_obj v /\ vma_prot V = vma_prot v
            /\ vma_flags V = vma_flags v /\ vma_vmmap V = vma_vmmap v
            /\ (vma_start V = vma_start v \/ vma_start V = u32 (lo + n))
            /\ (vma_end V = vma_end v \/ vma_end V = lo)
            /\ (vma_start v < vma_end v -> vma_start V < vma_end V).
Proof.
  intros Hr HV.
  destruct (vmmap_remove_post lo n k code k' Hr) as (_ & _ & vs & pre & left & Hl & Hk & _ & Hvs).
  rewrite Hl in HV. apply elem_of_app in HV as [HV|HV].
  - rewrite Forall_forall in Hvs. apply list_elem_of_In in HV.
    destruct (Hvs V HV) as (v & Hin & _ & _ & Hwf & Hs & He & Ho & Hp & Hfl & Hm).
    exists v. repeat split; done.
  - exists V. split; [rewrite Hk; apply elem_of_app; by right|].
    repeat split; try done; by left.
Qed.

(** X9: every region in the list after [vmmap_remove] comes from a
    region of the list before: it has its object, protection, flags and
    owner, its start is the old start or [hipage], its end is the old
    end or [lopage], and it has at least one page when the old region
    had. *)
Theorem remove_regions_come_from (lo n : Z) (k : kstate) (code : Z) (k' : kstate)
    (V : vmarea) :
  vmmap_remove lo n k = Next code k' ->
  V ∈ k_vmm_list k' ->
  exists v, v ∈ k_vmm_list k
            /\ vma_obj V = vma_obj v /\ vma_prot V = vma_prot v
            /\ vma_flags V = vma_flags v /\ vma_vmmap V = vma_vmmap v
            /\ (vma_start V = vma_start v \/ vma_start V = u32 (lo + n))
            /\ (vma_end V = vma_end v \/ vma_end V = lo)
            /\ (vma_start v < vma_end v -> vma_start V < vma_end V).
Proof. apply vmmap_remove_origin. Qed.

(** X10: [vmmap_remove] with [lopage] inside the window keeps every
    region inside the window and with at least one page, whether the
    call answers [0] or [-ENOSPC]. *)
Theorem remove_keeps_regions_in_window (lo n : Z) (k : kstate) (code : Z) (k' : kstate) :
  0 <= lo <= USER_PAGE_HIGH ->
  Forall area_in_window (k_vmm_list k) ->
  vmmap_remove lo n k = Next code k' ->
  Forall area_in_window (k_vmm_list k').
Proof.
  intros Hlo Hw Hr. rewrite Forall_forall in Hw |- *. intros V HV.
  apply list_elem_of_In in HV.
  destruct (vmmap_remove_origin lo n k code k' V Hr HV)
    as (v & Hin & _ & _ & _ & _ & Hs & He & Hwf).
  apply list_elem_of_In in Hin. destruct (Hw v Hin) as [Hv1 Hv2].
  pose proof (u32_range (lo + n)). unfold area_in_window. lia.
Qed.
End RemovePost.

(** ** [vmmap_destroy] *)

Section Destroy.

Lemma destroy_body_mk v rest s a lp rc lg :
  destroy_body 0 (mk_kstate (v :: rest) s a lp rc lg)
  = match vma_obj v with
    | Some o => Next 0%nat (mk_kstate rest s a lp (bump (-1) o rc)
                              (lg ++ [EvPut o] ++ [EvSlabFree v]))
    | None => Panic
    end.
Proof.
  unfold destroy_body. munfold.
  rewrite (vma_at_mk [] v rest). munfold.
  destruct (vma_obj v) as [o|]; [|done]. munfold.
  rewrite mmo_put_mk. rewrite (list_remove_mk [] v rest). cbn [app].
  by rewrite vmarea_free_mk, <- app_assoc.
Qed.

Lemma destroy_iter_S n i k :
  destroy_iter (S n) i k =
  match destroy_body i k with
  | Next i' k' => destroy_iter n i' k'
  | Return code k' => Return code k'
  | Panic => Panic
  end.
Proof. reflexivity. Qed.

Lemma destroy_iter_all (l : list vmarea) : forall s a lp rc lg,
  Forall (fun vma => is_Some (vma_obj vma)) l ->
  exists rc' lg',
    destroy_iter (length l) 0 (mk_kstate l s a lp rc lg)
    = Next 0%nat (mk_kstate [] s a lp rc' lg')
    /\ forall o, rc' o = rc o - count_obj o l.
Proof.
  induction l as [|v l IH]; intros s a lp rc lg Hobj.
  - exists rc, lg. split; [done|]. intros o. simpl. lia.
  - apply Forall_cons_iff in Hobj as [[o0 Ho] Hobj].
    cbn [length]. rewrite destroy_iter_S, destroy_body_mk, Ho.
    destruct (IH s a lp (bump (-1) o0 rc) (lg ++ [EvPut o0] ++ [EvSlabFree v]) Hobj)
      as (rc' & lg' & -> & Hrc).
    exists rc', lg'. split; [done|]. intros o. rewrite Hrc. cbn [count_obj].
    rewrite Ho. unfold bump. repeat case_decide; simplify_eq; lia.
Qed.

Lemma destroy_iter_null (l : list vmarea) : forall s a lp rc lg,
  Exists (fun vma => vma_obj vma = None) l ->
  destroy_iter (length l) 0 (mk_kstate l s a lp rc lg) = Panic.
Proof.
  induction l as [|v l IH]; intros s a lp rc lg Hex; [by apply Exists_nil in Hex|].
  cbn [length]. rewrite destroy_iter_S, destroy_body_mk.
  destruct (vma_obj v) as [o0|] eqn:Ho; [|done].
  apply IH. apply Exists_cons in Hex as [Hex|Hex]; [congruence | done].
Qed.

(** X11: on a map whose regions all have an object, [vmmap_destroy]
    leaves no region linked and releases one reference for each region:
    the count of every object drops by the number of regions that
    pointed at it. *)
Theorem vmmap_destroy_releases_every_region (k : kstate) :
  Forall (fun vma => is_Some (vma_obj vma)) (k_vmm_list k) ->
  exists k',
    vmmap_destroy k = Next tt k'
    /\ k_vmm_list k' = []
    /\ forall o, k_refcount k' o = k_refcount k o - count_obj o (k_vmm_list k).
Proof.
  destruct k as [l s a lp rc lg]. cbn [k_vmm_list k_refcount]. intros Hobj.
  destruct (destroy_iter_all l s a lp rc lg Hobj) as (rc' & lg' & Hd & Hrc).
  unfold vmmap_destroy, call_void. munfold. cbn [k_vmm_list]. rewrite Hd.
  eexists. split; [reflexivity|]. done.
Qed.

(** X12: on a map with a region whose object is [NULL],
    [vmmap_destroy] stops the kernel (it calls [put] through the
    object). *)
Theorem vmmap_destroy_null_object_panics (k : kstate) :
  Exists (fun vma => vma_obj vma = None) (k_vmm_list k) ->
  vmmap_destroy k = Panic.
Proof.
  destruct k as [l s a lp rc lg]. cbn [k_vmm_list]. intros Hex.
  unfold vmmap_destroy, call_void. munfold. cbn [k_vmm_list].
  by rewrite destroy_iter_null.
Qed.
End Destroy.

(** ** [vmmap_map], further *)

Section MapMore.
Context {cfg : kconfig}.

(** [vmmap_map] with [file = NULL] up to the removal, when the two
    allocations and every page lookup succeed. *)
Lemma vmmap_map_anon_run (lopage npages prot flags off dir lo : Z)
    (l : list vmarea) (raw : vmarea) (slab' : list (option vmarea)) (o : mmobj)
    (anon' : list (option mmobj)) lp rc lg :
  PAGE_ALIGNED off = true ->
  (if lopage =? 0
   then 0 <= vmmap_find_range l npages dir /\ lo = u32 (vmmap_find_range l npages dir)
   else lo = lopage) ->
  0 <= lo -> 0 <= npages -> lo + npages < 2 ^ 32 ->
  (forall p, lo <= p < lo + npages -> 0 <= (lp o p 1).1) ->
  vmmap_map None lopage npages prot flags off dir
    (mk_kstate l (Some raw :: slab') (Some o :: anon') lp rc lg)
  = call_int ((if lopage =? 0 then mret tt else vmmap_remove lo npages;; mret tt);;
              vmmap_insert (mk_vmarea lo (lo + npages) 0 prot flags false (Some o));;
              return_ 0)
      (mk_kstate l slab' anon' lp rc
         (lg ++ [EvSlabAlloc; EvAnonCreate]
             ++ ((fun p => EvLookuppage o p 1) <$> seqZ lo npages))).
Proof.
  intros Hal Hlo Hlo0 Hn Hhi Hok.
  assert (Hu : u32 (lo + npages) = lo + npages) by (apply u32_id; lia).
  assert (Hfr : (lopage =? 0) = true -> (vmmap_find_range l npages dir <? 0) = false).
  { intros E. rewrite E in Hlo. apply Z.ltb_ge. tauto. }
  assert (Hlo' : lo = if lopage =? 0 then u32 (vmmap_find_range l npages dir) else lopage).
  { destruct (lopage =? 0); tauto. }
  clear Hlo.
  unfold vmmap_map, call_int.
  munfold; rewrite Hal; munfold; rewrite vmarea_alloc_mk; munfold.
  destruct (lopage =? 0); munfold; cbn [k_vmm_list];
    rewrite ?Hfr by done; munfold; subst lo.
  all: rewrite anon_create_mk; munfold; rewrite Hu; unfold map_touch_pages.
  all: match goal with |- context [for_pages (Z.to_nat (?x + ?n - ?x))] =>
         replace (x + n - x) with n by lia
       end.
  all: rewrite touch_pages_all by (intros q Hq; apply Hok; lia).
  all: rewrite ?Z2Nat.id by lia.
  all: rewrite <- !app_assoc; cbn [app].
  all: by destruct (negb _).
Qed.




Lemma vmmap_remove_failed (lo n : Z) (k k2 : kstate) :
  ENOSPC <> 0 ->
  vmmap_remove lo n k = Next (- ENOSPC) k2 ->
  exists V pre' post,
    V ∈ k_vmm_list k /\ k_vmm_list k2 = pre' ++ V :: post
    /\ vma_start V < lo /\ u32 (lo + n) < vma_end V.
Proof.
  intros Hen Hr. rewrite vmmap_remove_unfold in Hr.
  pose proof (remove_iter_frame lo (u32 (lo + n)) (k_vmm_list k) [] [] k) as Hf.
  rewrite app_nil_r in Hf. specialize (Hf eq_refl). cbn [length app] in Hf.
  destruct (remove_iter lo (u32 (lo + n)) (length (k_vmm_list k)) 0 k)
    as [i k1|c k1|]; [| |done]; injection Hr as Hc <-; [lia|].
  destruct Hf as (_ & pre & V & post & vs & k3 & Hl & _ & Hl3 & Hs & He & _ & Hk1).
  exists V, vs, post. rewrite app_nil_r in Hl3. rewrite Hk1, Hl3, Hl.
  split; [apply elem_of_app; right; by left | done].
Qed.

(** X15: [vmmap_map] does not look at the status of the removal
    (line 408): when the removal fails with [-ENOSPC], the call still
    inserts the new region and answers [0], and a region of the old map
    that holds the whole range ([start < lopage], [lopage + npages <
    end]) is still linked beside it. *)
Theorem map_fixed_ignores_failed_removal (lopage npages prot flags off dir : Z)
    (k : kstate) (raw : vmarea) (slab' : list (option vmarea)) (o : mmobj)
    (anon' : list (option mmobj)) (k2 : kstate) :
  ENOSPC <> 0 ->
  PAGE_ALIGNED off = true ->
  k_slab k = Some raw :: slab' ->
  k_anon k = Some o :: anon' ->
  0 < lopage -> 1 <= npages -> lopage + npages < 2 ^ 32 ->
  (forall p, lopage <= p < lopage + npages -> 0 <= (k_lookuppage k o p 1).1) ->
  vmmap_remove lopage npages
    (mk_kstate (k_vmm_list k) slab' anon' (k_lookuppage k) (k_refcount k)
       (k_log k ++ [EvSlabAlloc; EvAnonCreate]
               ++ ((fun p => EvLookuppage o p 1) <$> seqZ lopage npages)))
  = Next (- ENOSPC) k2 ->
  exists k' V,
    vmmap_map None lopage npages prot flags off dir k = Next 0 k'
    /\ V ∈ k_vmm_list k /\ V ∈ k_vmm_list k'
    /\ vma_start V < lopage /\ lopage + npages < vma_end V
    /\ set_vma_vmmap true (mk_vmarea lopage (lopage + npages) 0 prot flags false (Some o))
         ∈ k_vmm_list k'.
Proof.
  destruct k as [l s a lp rc lg].
  intros Hen Hal Hs Ha Hlo Hn Hhi Hok Hrm.
  cbn [k_slab k_anon k_vmm_list k_lookuppage k_refcount k_log] in *. subst s a.
  assert (Hz : (lopage =? 0) = false) by (apply Z.eqb_neq; lia).
  rewrite (vmmap_map_anon_run lopage npages prot flags off dir lopage)
    by (try done; try lia; by rewrite Hz).
  rewrite Hz. unfold call_int. munfold. rewrite Hrm. munfold.
  destruct (vmmap_remove_failed _ _ _ _ Hen Hrm) as (V & pre' & post & Hl & Hl2 & Hs & He).
  cbn [k_vmm_list] in Hl. rewrite u32_id in He by lia.
  set (newvma := mk_vmarea lopage (lopage + npages) 0 prot flags false (Some o)).
  unfold vmmap_insert, call_void. munfold. cbn [vma_start vma_end newvma]. zbool.
  eexists _, V. split; [reflexivity|]. cbn [k_vmm_list set_k_vmm_list].
  destruct (insert_areas_split newvma (k_vmm_list k2)) as (l1 & l2 & Hk2 & ->).
  assert (HV : V ∈ l1 ++ l2).
  { rewrite <- Hk2, Hl2. apply elem_of_app. right. by left. }
  split; [done|].
  split; [|split; [done|split; [done|]]].
  - apply elem_of_app in HV as [HV|HV]; apply elem_of_app; [by left|].
    right. by right.
  - apply elem_of_app. right. by left.
Qed.

Lemma ends_with_bind {A B} (m : M A) (f : A -> M B) (Q : A -> Prop) (Q' : B -> Prop)
    (R : Z -> Prop) :
  ends_with m Q R -> (forall a, Q a -> ends_with (f a) Q' R) ->
  ends_with (m ≫= f) Q' R.
Proof.
  intros Hm Hf k. unfold mbind, M_bind, bind.
  specialize (Hm k). destruct (m k) as [a k1|code k1|]; [|done..].
  apply (Hf a Hm k1).
Qed.

Lemma ends_with_any {A} (m : M A) (R : Z -> Prop) :
  (forall k code k', m k <> Return code k') -> ends_with m (fun _ => True) R.
Proof. intros Hm k. specialize (Hm k). destruct (m k); [done| |done]. by edestruct Hm. Qed.

Lemma ends_with_KASSERT (b : bool) (R : Z -> Prop) :
  ends_with (KASSERT b) (fun _ => b = true) R.
Proof. by destruct b. Qed.

Lemma vmarea_alloc_no_return k code k' : vmarea_alloc k <> Return code k'.
Proof. destruct k as [l s a lp rc lg]. by destruct s as [|[raw|] s']. Qed.

Lemma anon_create_no_return k code k' : anon_create k <> Return code k'.
Proof. destruct k as [l s a lp rc lg]. by destruct a as [|[o|] a']. Qed.

Lemma ends_with_for_pages (body : Z -> M unit) (R : Z -> Prop) :
  (forall p, ends_with (body p) (fun _ => True) R) ->
  forall n p, ends_with (for_pages n p body) (fun _ => True) R.
Proof.
  intros Hbody. induction n as [|n IH]; intros p; [done|].
  eapply ends_with_bind; [apply Hbody | intros _ _; apply IH].
Qed.

Lemma ends_with_map_touch_pages o lo hi :
  ends_with (map_touch_pages o lo hi) (fun _ => True) (fun code => code < 0).
Proof.
  apply ends_with_for_pages. intros p k. destruct k as [l s a lp rc lg].
  rewrite map_touch_page_mk. cbv zeta.
  destruct (Z.ltb_spec (lp o p 1).1 0); [|done]. by destruct (bool_decide _).
Qed.

(** X16: [vmmap_map] of an anonymous mapping of [npages = 0] pages
    never answers [0]: the region would have [end = start], which the
    assertion of [vmmap_insert] rejects. *)
Theorem map_anon_zero_pages_never_succeeds (lopage prot flags off dir : Z)
    (k k' : kstate) :
  ENOSPC <> 0 -> 0 <= lopage < 2 ^ 32 ->
  vmmap_map None lopage 0 prot flags off dir k <> Next 0 k'.
Proof.
  intros Hen Hlo Hr. unfold vmmap_map, call_int in Hr.
  match type of Hr with match ?body k with _ => _ end = _ =>
    assert (He : ends_with body (fun _ => False) (fun code => code <> 0))
  end.
  { clear Hr. eapply ends_with_bind; [apply ends_with_KASSERT|]. intros _ _.
    eapply ends_with_bind; [apply ends_with_any, vmarea_alloc_no_return|].
    intros [vma_result|] _; [|intros k0; simpl; lia].
    eapply (ends_with_bind _ _ (fun p => 0 <= p.1 < 2 ^ 32)).
    { destruct (lopage =? 0); [|by intros k0].
      intros k0. munfold. destruct (_ <? 0); munfold.
      - destruct (_ =? -1); [simpl; lia | done].
      - simpl. apply u32_range. }
    intros [lo remove] Hlo'. simpl in Hlo'.
    eapply (ends_with_bind _ _ (fun vma => vma_end vma = vma_start vma)).
    { eapply ends_with_bind; [apply ends_with_any, anon_create_no_return|].
      intros [o|] _; [|intros k0; simpl; lia].
      eapply ends_with_bind.
      - intros k0. pose proof (ends_with_map_touch_pages o lo (u32 (lo + 0)) k0) as Ht.
        destruct (map_touch_pages _ _ _ k0); [exact I | simpl in *; lia | done].
      - intros _ _ k0. simpl. rewrite Z.add_0_r. by apply u32_id. }
    intros vma Hvma.
    eapply ends_with_bind; [by apply ends_with_any; intros k0 c k1; destruct (negb _)|].
    intros _ _.
    eapply ends_with_bind.
    { apply ends_with_any. intros k0 c k1. destruct remove; [|done].
      munfold. destruct (vmmap_remove lo 0 k0) eqn:Er; try done.
      by apply vmmap_remove_no_return in Er. }
    intros _ _.
    eapply (ends_with_bind _ _ (fun _ => False)); [|done].
    intros k0. unfold vmmap_insert, call_void. munfold. rewrite Hvma.
    by rewrite Z.gtb_ltb, Z.ltb_irrefl. }
  specialize (He k).
  match type of Hr with match ?t with _ => _ end = _ =>
    destruct t as [[]|c k1|]
  end; [|done].
  by injection Hr as -> ->.
Qed.

(** X17: [vmmap_map] of a file whose [mmap] callback answers a
    negative status: the callback was handed the region with [start],
    [end], [off = 0], [prot] and [flags] set and its object untouched;
    when it left the object place [NULL] the call answers that status
    and the list is untouched, otherwise the assertion of line 397
    stops the kernel. *)
Theorem map_file_error_propagates (file : vnode) (lopage npages prot flags off dir lo : Z)
    (k : kstate) (raw : vmarea) (slab' : list (option vmarea))
    (err : Z) (mmobj_ret : option mmobj) (vma' : vmarea) :
  PAGE_ALIGNED off = true ->
  k_slab k = Some raw :: slab' ->
  (if lopage =? 0
   then 0 <= vmmap_find_range (k_vmm_list k) npages dir
        /\ lo = u32 (vmmap_find_range (k_vmm_list k) npages dir)
   else lo = lopage) ->
  let shell := mk_vmarea lo (u32 (lo + npages)) 0 prot flags false (vma_obj raw) in
  vn_mmap file shell = (err, mmobj_ret, vma') ->
  err < 0 ->
  vmmap_map (Some file) lopage npages prot flags off dir k
  = match mmobj_ret with
    | None =>
        Next err (mk_kstate (k_vmm_list k) slab' (k_anon k) (k_lookuppage k)
                            (k_refcount k)
                            (k_log k ++ [EvSlabAlloc; EvMmap (vn_id file) shell]))
    | Some _ => Panic
    end.
Proof.
  destruct k as [l s a lp rc lg].
  intros Hal Hs Hlo shell Hcb Herr.
  cbn [k_slab k_anon k_vmm_list k_lookuppage k_refcount k_log] in *. subst s.
  assert (Hfr : (lopage =? 0) = true -> (vmmap_find_range l npages dir <? 0) = false).
  { intros E. rewrite E in Hlo. apply Z.ltb_ge. tauto. }
  assert (Hlo' : lo = if lopage =? 0 then u32 (vmmap_find_range l npages dir) else lopage).
  { destruct (lopage =? 0); tauto. }
  clear Hlo.
  unfold vmmap_map, call_int.
  munfold; rewrite Hal; munfold; rewrite vmarea_alloc_mk; munfold.
  destruct (lopage =? 0); munfold; cbn [k_vmm_list];
    rewrite ?Hfr by done; munfold; subst lo.
  all: unfold vnode_mmap; munfold; cbn [log_event k_vmm_list k_slab k_anon k_lookuppage
                                         k_refcount k_log].
  all: change (set_vma_flags flags _) with shell; rewrite Hcb; cbv beta iota.
  all: destruct (Z.ltb_spec err 0); [|lia]; munfold.
  all: destruct mmobj_ret; cbn; [done|].
  all: unfold log_event; cbn [k_vmm_list k_slab k_anon k_lookuppage k_refcount k_log].
  all: by rewrite <- app_assoc.
Qed.

Lemma u32_neg (x : Z) : - 2 ^ 32 <= x < 0 -> u32 x = x + 2 ^ 32.
Proof.
  intros H. unfold u32.
  replace x with (x + 2 ^ 32 + (-1) * 2 ^ 32) at 1 by lia.
  rewrite Z_mod_plus_full. apply Z.mod_small. lia.
Qed.

(** X18: on the empty map the high-to-low search does not compare
    [npages] with the window: for [npages] above [USER_PAGE_HIGH + 1]
    it answers [USER_PAGE_HIGH - npages], a negative number that is not
    [-1], and [vmmap_map] with [lopage = 0] stops the kernel at the
    assertion of line 345. *)
Theorem map_hilo_empty_map_oversize_panics (file : option vnode)
    (npages prot flags off dir : Z) (k : kstate) (raw : vmarea)
    (slab' : list (option vmarea)) :
  k_vmm_list k = [] ->
  0 <= USER_PAGE_HIGH < 2 ^ 31 ->
  USER_PAGE_HIGH + 1 < npages <= USER_PAGE_HIGH + 2 ^ 31 ->
  dir <> VMMAP_DIR_LOHI -> dir <> 0 ->
  PAGE_ALIGNED off = true ->
  k_slab k = Some raw :: slab' ->
  vmmap_find_range (k_vmm_list k) npages dir = USER_PAGE_HIGH - npages
  /\ vmmap_map file 0 npages prot flags off dir k = Panic.
Proof.
  destruct k as [l s a lp rc lg].
  intros Hl Hcfg Hn Hd1 Hd2 Hal Hs.
  cbn [k_slab k_vmm_list] in *. subst l s.
  assert (Hfr : vmmap_find_range [] npages dir = USER_PAGE_HIGH - npages).
  { unfold vmmap_find_range.
    replace ((dir =? VMMAP_DIR_LOHI) || (dir =? 0)) with false
      by (symmetry; apply orb_false_iff; rewrite !Z.eqb_neq; done).
    cbn [rev]. rewrite u32_neg by lia. unfold to_int.
    destruct (Z.ltb_spec (USER_PAGE_HIGH - npages + 2 ^ 32) (2 ^ 31)); lia. }
  split; [done|].
  unfold vmmap_map, call_int.
  munfold; rewrite Hal; munfold; rewrite vmarea_alloc_mk; munfold.
  cbn [Z.eqb k_vmm_list]. rewrite Hfr.
  destruct (Z.ltb_spec (USER_PAGE_HIGH - npages) 0); [|lia].
  destruct (Z.eqb_spec (USER_PAGE_HIGH - npages) (-1)); [lia|]. done.
Qed.

(** X19: on the empty map the low-to-high search answers [0] whatever
    [npages] is: [vmmap_map] of an anonymous mapping with [lopage = 0]
    then links the region [[0, npages)], also when [npages] is above
    [USER_PAGE_HIGH] and the region leaves the window. *)
Theorem map_lohi_empty_map_ignores_window (npages prot flags off dir : Z) (k : kstate)
    (raw : vmarea) (slab' : list (option vmarea)) (o : mmobj)
    (anon' : list (option mmobj)) :
  k_vmm_list k = [] ->
  dir = VMMAP_DIR_LOHI \/ dir = 0 ->
  1 <= npages < 2 ^ 32 ->
  PAGE_ALIGNED off = true ->
  k_slab k = Some raw :: slab' ->
  k_anon k = Some o :: anon' ->
  (forall p, 0 <= p < npages -> 0 <= (k_lookuppage k o p 1).1) ->
  exists k',
    vmmap_map None 0 npages prot flags off dir k = Next 0 k'
    /\ k_vmm_list k' = [mk_vmarea 0 npages 0 prot flags true (Some o)].
Proof.
  destruct k as [l s a lp rc lg].
  intros Hl Hdir Hn Hal Hs Ha Hok.
  cbn [k_slab k_anon k_vmm_list k_lookuppage] in *. subst l s a.
  assert (Hfr : vmmap_find_range [] npages dir = 0).
  { unfold vmmap_find_range.
    by replace ((dir =? VMMAP_DIR_LOHI) || (dir =? 0)) with true
      by (symmetry; apply orb_true_iff; rewrite !Z.eqb_eq; done). }
  rewrite (vmmap_map_anon_run 0 npages prot flags off dir 0)
    by (try done; try lia; cbn [Z.eqb]; rewrite Hfr; done).
  unfold call_int, vmmap_insert, call_void. cbn [Z.eqb]. munfold.
  cbn [vma_start vma_end]. zbool.
  eexists. split; reflexivity.
Qed.

Lemma remove_body_settled lo hi done V rest s a lp rc lg :
  lo <= hi -> settled lo hi V ->
  remove_body lo hi (length done) (mk_kstate (done ++ V :: rest) s a lp rc lg)
  = Next (S (length done)) (mk_kstate (done ++ V :: rest) s a lp rc lg).
Proof.
  intros Hle [[Hs He]|(Hs & He & Ho)].
  all: rewrite remove_body_unfold, remove_case1_mk; zb.
  all: munfold; rewrite remove_case2_mk; fields; zb.
  all: rewrite remove_case3_mk; fields; zb.
  all: rewrite remove_case4_mk; fields; zb.
  all: do 3 f_equal; destruct V as [st en ofs pr fl vm ob]; simpl in *; subst.
  - done.
  - unfold set_vma_start, set_vma_off. simpl.
    by rewrite Z.sub_diag, Z.add_0_l, u32_id.
Qed.

Lemma remove_iter_settled lo hi todo : forall done rest s a lp rc lg,
  lo <= hi -> Forall (settled lo hi) todo ->
  remove_iter lo hi (length todo) (length done)
    (mk_kstate (done ++ todo ++ rest) s a lp rc lg)
  = Next (length (done ++ todo)) (mk_kstate (done ++ todo ++ rest) s a lp rc lg).
Proof.
  induction todo as [|V todo IH]; intros done rest s a lp rc lg Hle Hall.
  - simpl. by rewrite app_nil_r.
  - apply Forall_cons_iff in Hall as [HV Hall].
    cbn [length]. rewrite remove_iter_S. cbn [app].
    rewrite remove_body_settled by done.
    replace (done ++ V :: todo ++ rest) with ((done ++ [V]) ++ todo ++ rest)
      by (by rewrite <- app_assoc).
    replace (S (length done)) with (length (done ++ [V]))
      by (rewrite length_app; simpl; lia).
    rewrite IH by done. by rewrite <- !app_assoc.
Qed.

(** X20: [vmmap_remove] is idempotent: after a removal that answered
    [0], the same removal answers [0] again and changes nothing, neither
    the list nor the reference counts nor the calls made. *)
Theorem vmmap_remove_idempotent (lo n : Z) (k k' : kstate) :
  ENOSPC <> 0 -> 0 <= lo -> 0 <= n -> lo + n < 2 ^ 32 ->
  vmmap_remove lo n k = Next 0 k' ->
  vmmap_remove lo n k' = Next 0 k'.
Proof.
  intros Hen Hlo Hn Hhi Hr.
  destruct (vmmap_remove_post lo n k 0 k' Hr) as (_ & _ & vs & pre & left & Hl & _ & Hleft & Hvs).
  rewrite (Hleft Hen eq_refl), app_nil_r in Hl.
  assert (Hu : u32 (lo + n) = lo + n) by (apply u32_id; lia).
  rewrite Hu in Hvs.
  assert (Hset : Forall (settled lo (lo + n)) vs).
  { eapply List.Forall_impl; [|exact Hvs]. simpl. intros V (v & _ & HV & _).
    apply HV. lia. }
  rewrite vmmap_remove_unfold, Hu. destruct k' as [l' s a lp rc lg].
  cbn [k_vmm_list] in *. subst l'.
  pose proof (remove_iter_settled lo (lo + n) vs [] [] s a lp rc lg ltac:(lia) Hset) as Hi.
  rewrite app_nil_r in Hi. cbn [app length] in Hi. by rewrite Hi.
Qed.
End MapMore.

(** ** The further properties at concrete inputs *)

Lemma find_range_lohi_first_fit_witness :
  let l := [area 10 20; area 30 40] in
  let r := vmmap_find_range (cfg := small_config) l 15 1 in
  (r = -1 /\
   forall s, 0 <= s -> s + 15 <= 1024 -> vmmap_is_range_empty l s 15 = false)
  \/
  (0 <= r /\ r + 15 <= 1024 /\
   vmmap_is_range_empty l r 15 = true /\
   forall s, 0 <= s < r -> vmmap_is_range_empty l s 15 = false).
Proof.
  apply (find_range_lohi_first_fit (cfg := small_config) [area 10 20; area 30 40] 15 1).
  - vm_compute; reflexivity.
  - lia.
  - split; [reflexivity|].
    repeat (constructor; [unfold area_in_window; simpl; lia|]). constructor.
  - discriminate.
  - left; reflexivity.
Defined.


Lemma vmmap_insert_links_region_witness :
  let k := example_state [area 10 20; area 30 40] 0 0 in
  exists k' l1 l2,
    vmmap_insert (area 20 30) k = Next tt k'
    /\ k_vmm_list k = l1 ++ l2
    /\ k_vmm_list k' = l1 ++ set_vma_vmmap true (area 20 30) :: l2
    /\ k_refcount k' = k_refcount k /\ k_log k' = k_log k.
Proof.
  intros k. apply (proj1 (vmmap_insert_links_region (area 20 30) k)).
  simpl; lia.
Defined.

Lemma vmmap_insert_keeps_valid_witness :
  let k := example_state [area 10 20; area 30 40] 0 0 in
  exists k', vmmap_insert (area 20 30) k = Next tt k'
             /\ vmmap_valid (cfg := small_config) (k_vmm_list k').
Proof.
  intros k. apply (vmmap_insert_keeps_valid (cfg := small_config) (area 20 30) k).
  - split; [reflexivity|].
    repeat (constructor; [unfold area_in_window; simpl; lia|]). constructor.
  - unfold area_in_window; simpl; lia.
  - repeat (constructor; [unfold areas_disjoint; simpl; lia|]). constructor.
Defined.

Lemma vmmap_insert_then_lookup_witness :
  let k := example_state [area 10 20; area 30 40] 0 0 in
  exists k',
    vmmap_insert (area 20 30) k = Next tt k' /\
    forall vfn, vfn < 1024 ->
      vmmap_lookup (cfg := small_config) (k_vmm_list k') vfn =
      Ok (if (20 <=? vfn) && (vfn <? 30)
          then Some (set_vma_vmmap true (area 20 30))
          else lookup_areas (k_vmm_list k) vfn).
Proof.
  intros k. apply (vmmap_insert_then_lookup (cfg := small_config) (area 20 30) k).
  - simpl; lia.
  - repeat (constructor; [unfold areas_disjoint; simpl; lia|]). constructor.
Defined.



Lemma remove_regions_come_from_witness :
  let V := mk_vmarea 100 200 7 1 2 true (Some (MmAnon 0)) in
  let k := example_state [V] 0 0 in
  let W := set_vma_end 150 V in
  exists v, v ∈ k_vmm_list k
            /\ vma_obj W = vma_obj v /\ vma_prot W = vma_prot v
            /\ vma_flags W = vma_flags v /\ vma_vmmap W = vma_vmmap v
            /\ (vma_start W = vma_start v \/ vma_start W = u32 (150 + 100))
            /\ (vma_end W = vma_end v \/ vma_end W = 150)
            /\ (vma_start v < vma_end v -> vma_start W < vma_end W).
Proof.
  intros V k W.
  apply (remove_regions_come_from (cfg := small_config) 150 100 k 0
           (set_k_vmm_list [W] k) W).
  - reflexivity.
  - simpl. left.
Defined.

Lemma remove_keeps_regions_in_window_witness :
  let V := mk_vmarea 100 200 7 1 2 true (Some (MmAnon 0)) in
  let k := example_state [V] 0 0 in
  Forall (area_in_window (cfg := small_config)) [set_vma_end 150 V].
Proof.
  intros V k.
  apply (remove_keeps_regions_in_window (cfg := small_config) 150 100 k 0
           (set_k_vmm_list [set_vma_end 150 V] k)).
  - simpl; lia.
  - repeat (constructor; [unfold area_in_window; simpl; lia|]). constructor.
  - reflexivity.
Defined.

Lemma vmmap_remove_idempotent_witness :
  let V := mk_vmarea 100 200 7 1 2 true (Some (MmAnon 0)) in
  let k := example_state [V] 0 0 in
  let k' := set_k_vmm_list [set_vma_end 150 V] k in
  vmmap_remove (cfg := small_config) 150 100 k' = Next 0 k'.
Proof.
  intros V k k'.
  apply (vmmap_remove_idempotent (cfg := small_config) 150 100 k k').
  - vm_compute; discriminate.
  - lia.
  - lia.
  - lia.
  - reflexivity.
Defined.

Lemma vmmap_destroy_releases_every_region_witness :
  let k := example_state [mk_vmarea 10 20 0 0 0 true (Some (MmAnon 0));
                          mk_vmarea 30 40 0 0 0 true (Some (MmAnon 0))] 0 0 in
  exists k',
    vmmap_destroy k = Next tt k'
    /\ k_vmm_list k' = []
    /\ forall o, k_refcount k' o = k_refcount k o - count_obj o (k_vmm_list k).
Proof.
  intros k. apply (vmmap_destroy_releases_every_region k).
  repeat (constructor; [eexists; reflexivity|]). constructor.
Defined.

Lemma vmmap_destroy_null_object_panics_witness :
  vmmap_destroy (example_state [area 10 20] 0 0) = Panic.
Proof.
  apply (vmmap_destroy_null_object_panics (example_state [area 10 20] 0 0)).
  left. reflexivity.
Defined.



Lemma map_fixed_ignores_failed_removal_witness :
  let V := mk_vmarea 100 200 7 1 2 true (Some (MmAnon 9)) in
  let k := example_state [V] 1 1 in
  exists k' W,
    vmmap_map (cfg := small_config) None 120 30 3 2 0 0 k = Next 0 k'
    /\ W ∈ k_vmm_list k /\ W ∈ k_vmm_list k'
    /\ vma_start W < 120 /\ 120 + 30 < vma_end W
    /\ set_vma_vmmap true (mk_vmarea 120 (120 + 30) 0 3 2 false (Some (MmAnon 0)))
         ∈ k_vmm_list k'.
Proof.
  intros V k.
  apply (map_fixed_ignores_failed_removal (cfg := small_config) 120 30 3 2 0 0 k raw_area []
           (MmAnon 0) []
           (mk_kstate [V] [] [] (k_lookuppage k) (k_refcount k)
              ((k_log k ++ [EvSlabAlloc; EvAnonCreate]
                  ++ ((fun p => EvLookuppage (MmAnon 0) p 1) <$> seqZ 120 30))
               ++ [EvSlabAlloc]))).
  - vm_compute; discriminate.
  - reflexivity.
  - reflexivity.
  - reflexivity.
  - lia.
  - lia.
  - lia.
  - intros p Hp. simpl. lia.
  - reflexivity.
Defined.

Lemma map_anon_zero_pages_never_succeeds_witness :
  let k := example_state [] 1 1 in
  vmmap_map (cfg := small_config) None 100 0 3 1 0 0 k <> Next 0 k.
Proof.
  intros k.
  apply (map_anon_zero_pages_never_succeeds (cfg := small_config) 100 3 1 0 0 k k).
  - vm_compute; discriminate.
  - lia.
Defined.

Lemma map_file_error_propagates_witness :
  let file := mk_vnode 3 (fun vma => (-5, None, vma)) in
  let k := example_state [] 1 0 in
  let shell := mk_vmarea 100 (u32 (100 + 10)) 0 3 1 false None in
  vmmap_map (cfg := small_config) (Some file) 100 10 3 1 0 0 k
  = Next (-5) (mk_kstate [] [] [] (k_lookuppage k) (k_refcount k)
                 ([] ++ [EvSlabAlloc; EvMmap 3 shell])).
Proof.
  intros file k shell.
  apply (map_file_error_propagates (cfg := small_config) file 100 10 3 1 0 0 100 k
           raw_area [] (-5) None shell).
  - reflexivity.
  - reflexivity.
  - reflexivity.
  - reflexivity.
  - lia.
Defined.

Lemma map_hilo_empty_map_oversize_panics_witness :
  let k := example_state [] 1 0 in
  vmmap_find_range (cfg := small_config) (k_vmm_list k) 2000 2 = 1024 - 2000
  /\ vmmap_map (cfg := small_config) None 0 2000 3 1 0 2 k = Panic.
Proof.
  intros k.
  apply (map_hilo_empty_map_oversize_panics (cfg := small_config) None 2000 3 1 0 2 k
           raw_area []).
  - reflexivity.
  - simpl; lia.
  - simpl; lia.
  - simpl; lia.
  - lia.
  - reflexivity.
  - reflexivity.
Defined.

Lemma map_lohi_empty_map_ignores_window_witness :
  let k := example_state [] 1 1 in
  exists k',
    vmmap_map (cfg := small_config) None 0 2000 3 1 0 1 k = Next 0 k'
    /\ k_vmm_list k' = [mk_vmarea 0 2000 0 3 1 true (Some (MmAnon 0))].
Proof.
  intros k.
  apply (map_lohi_empty_map_ignores_window (cfg := small_config) 2000 3 1 0 1 k
           raw_area [] (MmAnon 0) []).
  - reflexivity.
  - left; reflexivity.
  - lia.
  - reflexivity.
  - reflexivity.
  - reflexivity.
  - intros p Hp. simpl. lia.
Defined.
